(** * io_tools: byte-order utility (net.h) and UdpConnection (UdpConnection.cpp)

    A shallow embedding of the two translation units and the properties
    their documentation states.

    - [Net]: [is_big_endian] and [to_network_order] of net.h, over the
      object representation (the bytes in memory) of a scalar.
    - [Udp]: the class [UdpConnection]; its methods are written in a small
      state monad over the object, the log of the calls made on operating
      system primitives, and the state of the operating system.
    - [Sim]: a small executable operating system used to run the methods on
      concrete inputs. *)

From Stdlib Require Import ZArith List String Bool Lia.
Import ListNotations.
Local Open Scope Z_scope.

(* ===================================================================== *)
(** ** net.h *)
(* ===================================================================== *)

Module Net.

(** The byte order of the machine the code runs on. *)
Inductive Endianness : Type := BigEndian | LittleEndian.

(** [sizeof(int)] on the supported targets. *)
Definition sizeof_int : nat := 4.

(** The [n] bytes of the unsigned value [v], least significant first. *)
Fixpoint le_bytes (n : nat) (v : Z) : list Z :=
  match n with
  | O => []
  | S k => (v mod 256) :: le_bytes k (v / 256)
  end.

(** The value of a byte sequence read least significant byte first. *)
Fixpoint le_value (bs : list Z) : Z :=
  match bs with
  | [] => 0
  | b :: rest => b + 256 * le_value rest
  end.

(** Object representation: what a [char*] sees when it is pointed at a
    scalar of [n] bytes holding [v]. *)
Definition object_bytes (e : Endianness) (n : nat) (v : Z) : list Z :=
  match e with
  | LittleEndian => le_bytes n v
  | BigEndian => rev (le_bytes n v)
  end.

(** The scalar held by an object representation. *)
Definition object_value (e : Endianness) (bs : list Z) : Z :=
  match e with
  | LittleEndian => le_value bs
  | BigEndian => le_value (rev bs)
  end.

(** C's [!x] on an integer. *)
Definition c_not (x : Z) : bool := x =? 0.

(** [cp[i]] for a [char*] into an object of known size. *)
Definition deref (cp : list Z) (i : nat) : Z := nth i cp 0.

(** net.h:13
<<
    const int number = 0x1;
    const char *ptr  = reinterpret_cast<const char* >(&number);
    return !(ptr[0]);
>> *)
Definition is_big_endian (e : Endianness) : bool :=
  let number := 1 in
  let ptr := object_bytes e sizeof_int number in
  c_not (deref ptr 0).

(** The same test for an [int] of [n] bytes: [sizeof(int)] is the
    platform's choice. *)
Definition is_big_endian_sized (n : nat) (e : Endianness) : bool :=
  let number := 1 in
  let ptr := object_bytes e n number in
  c_not (deref ptr 0).

(** The body of the lambda of net.h:45, run on its two parameters; the
    result is the final value of the parameters [a] and [b].
<<
    a ^= b; b ^= a; a ^= b;
>> *)
Definition swap_body (a b : Z) : Z * Z :=
  let a := Z.lxor a b in
  let b := Z.lxor b a in
  let a := Z.lxor a b in
  (a, b).

(** A call [swap(cp[i], cp[j])] of the lambda [[] (char a, char b) {...}]:
    both parameters are passed by value, so the two bytes are read, the body
    runs on the copies, the copies die with the call, and the call returns
    nothing.  The memory [cp] points to is not an operand of the body. *)
Definition swap_call (cp : list Z) (i j : nat) : list Z :=
  let a := deref cp i in
  let b := deref cp j in
  let '(_, _) := swap_body a b in
  cp.

(** The same call had the lambda taken its parameters by reference
    ([char& a, char& b]): the final values are stored back. Not in the
    source; kept for comparison. *)
Definition store (cp : list Z) (i : nat) (v : Z) : list Z :=
  firstn i cp ++ match skipn i cp with [] => [] | _ :: tl => v :: tl end.

Definition swap_call_by_ref (cp : list Z) (i j : nat) : list Z :=
  let '(a, b) := swap_body (deref cp i) (deref cp j) in
  store (store cp i a) j b.

(** What a call that exchanges [cp[i]] and [cp[j]] leaves in memory. *)
Definition exchange (cp : list Z) (i j : nat) : list Z :=
  store (store cp i (deref cp j)) j (deref cp i).

(** The loop of net.h:54, parametric in the call it makes:
<<
    for (int i = 0; i < N / 2; i++)
        swap(cp[i], cp[N-i-1]);
>> *)
Definition swap_loop (call : list Z -> nat -> nat -> list Z)
    (N : nat) (cp : list Z) : list Z :=
  fold_left (fun mem i => call mem i (N - i - 1)%nat) (seq 0 (N / 2)) cp.

(** Memory after the first [m] rounds of that loop. *)
Definition loop_rounds (call : list Z -> nat -> nat -> list Z)
    (N : nat) (cp : list Z) (m : nat) : list Z :=
  fold_left (fun mem i => call mem i (N - i - 1)%nat) (seq 0 m) cp.

(** net.h:41, the body of [to_network_order(T& data)] for a [T] with which
    it is well-formed (see [to_network_order_for] below); [data] is the
    object representation of the argument and [sizeof(T)] its length. *)
Definition to_network_order (e : Endianness) (data : list Z) : list Z :=
  if negb (is_big_endian e) then
    let cp := data in
    let N := List.length data in
    swap_loop swap_call N cp
  else data.

(** The variant with a by-reference lambda, for comparison. *)
Definition to_network_order_by_ref (e : Endianness) (data : list Z) : list Z :=
  if negb (is_big_endian e) then swap_loop swap_call_by_ref (List.length data) data
  else data.

(** [to_network_order] seen on a scalar of [n] bytes holding [v]. *)
Definition to_network_order_scalar (e : Endianness) (n : nat) (v : Z) : Z :=
  object_value e (to_network_order e (object_bytes e n v)).

(** *** Instantiations of the template *)

(** The type argument [T] of an instantiation: [char]; another built-in
    scalar of [size] bytes, for which [&data] is a [T*]; or a class type of
    [size] bytes whose [operator&] returns a [char*] to its storage. *)
Inductive TypeArg : Type :=
| Char
| Scalar (size : nat)
| CharAddressed (size : nat).

Definition sizeof (T : TypeArg) : nat :=
  match T with
  | Char => 1%nat
  | Scalar size | CharAddressed size => size
  end.

(** net.h:51, [char* cp = &data;], has no cast: it is well-formed only
    when the type of [&data] converts implicitly to [char*], which no
    [T*] other than [char*] does. *)
Definition address_converts_to_char_ptr (T : TypeArg) : bool :=
  match T with
  | Char | CharAddressed _ => true
  | Scalar _ => false
  end.

(** [to_network_order<T>(data)]: nothing when the body is ill-formed for
    [T], so that there is no such function to call; otherwise the function
    above on the [sizeof(T)] bytes of [data]. *)
Definition to_network_order_for (T : TypeArg) (e : Endianness)
    (data : list Z) : option (list Z) :=
  if address_converts_to_char_ptr T then Some (to_network_order e data)
  else None.

(** The same on an object of type [T] holding the value [v]. *)
Definition to_network_order_for_value (T : TypeArg) (e : Endianness) (v : Z)
    : option Z :=
  option_map (object_value e)
    (to_network_order_for T e (object_bytes e (sizeof T) v)).

End Net.

(* ===================================================================== *)
(** ** UdpConnection.h, UdpConnection.cpp *)
(* ===================================================================== *)

Module Udp.
Import Net.

(** *** Data *)

(** [struct sockaddr_in]: family, port as stored (network order), and the
    four bytes of [sin_addr]. *)
Record sockaddr_in : Type := mk_sockaddr_in {
  sin_family : Z;
  sin_port : Z;
  sin_addr : list Z
}.

(** The part of [struct hostent] the code reads: [h_addr_list[0]] and
    [h_length]. *)
Record hostent : Type := mk_hostent {
  h_addr : list Z;
  h_length : nat
}.

Definition AF_INET : Z := 2.
Definition INADDR_ANY : Z := 0.

(** [htons] and [htonl] of the C library. *)
Definition htons (e : Endianness) (x : Z) : Z :=
  object_value e (rev (le_bytes 2 x)).
Definition htonl (e : Endianness) (x : Z) : Z :=
  object_value e (rev (le_bytes 4 x)).

(** [std::memset(p, c, n)] and [std::memcpy(dst, src, n)] on byte lists. *)
Definition memset (c : Z) (n : nat) : list Z := repeat c n.
Definition memcpy (dst src : list Z) (n : nat) : list Z :=
  firstn n src ++ skipn n dst.

(** The data members of [UdpConnection] that UdpConnection.cpp reads or
    writes ([_data], [_raw] and [_size] are declared and never used). *)
Record UdpConnection : Type := mk_UdpConnection {
  _fd : Z;
  _is_connected : bool;
  _is_init : bool;
  _remote_addr : sockaddr_in
}.

(** The connection state of the documentation, derived from the two flags. *)
Inductive ConnState : Type := Uninitialized | Unconnected | Connected.

Definition conn_state (c : UdpConnection) : ConnState :=
  if negb (_is_init c) then Uninitialized
  else if _is_connected c then Connected
  else Unconnected.

(** *** Operating system *)

(** One call on a primitive of the operating system, with its arguments
    and its result. *)
Inductive Event : Type :=
| EvSocket (ret : Z)
| EvGetHostByName (name : string) (found : bool)
| EvBind (fd : Z) (addr : sockaddr_in) (ret : Z)
| EvConnect (fd : Z) (addr : sockaddr_in) (ret : Z)
| EvCanRead (fd : Z) (timeout : Z) (ready : bool)
| EvCanWrite (fd : Z) (timeout : Z) (ready : bool)
| EvRecvFrom (fd : Z) (size : Z) (ret : Z) (sender : sockaddr_in)
| EvWrite (fd : Z) (buf : list Z) (size : Z) (ret : Z).

(** The primitives the code calls, as transitions of a state [W] of the
    operating system, and the byte order of the host.  [os_recvfrom]
    returns the count, the bytes it stored in the buffer and the sender. *)
Class OS (W : Type) : Type := {
  host_order : Endianness;
  os_socket : W -> Z * W;
  os_gethostbyname : string -> W -> option hostent * W;
  os_bind : Z -> sockaddr_in -> W -> Z * W;
  os_connect : Z -> sockaddr_in -> W -> Z * W;
  os_can_read : Z -> Z -> W -> bool * W;
  os_can_write : Z -> Z -> W -> bool * W;
  os_recvfrom : Z -> Z -> W -> (Z * list Z * sockaddr_in) * W;
  os_write : Z -> list Z -> Z -> W -> Z * W
}.

Section Methods.
Context {W : Type} {os : OS W}.

(** *** The monad of member functions

    A member function runs on the object ([this]), the log of the calls
    made so far and the state of the operating system. *)
Record State : Type := mk_State {
  this : UdpConnection;
  log : list Event;
  world : W
}.

Definition M (A : Type) : Type := State -> A * State.

Definition ret {A : Type} (a : A) : M A := fun s => (a, s).
Definition bind_M {A B : Type} (m : M A) (k : A -> M B) : M B :=
  fun s => let '(a, s') := m s in k a s'.

Notation "x <- m ;; k" := (bind_M m (fun x => k))
  (at level 61, m at next level, right associativity).
Notation "' p <- m ;; k" := (bind_M m (fun x => let 'p := x in k))
  (at level 61, p pattern, m at next level, right associativity).
Notation "m ;;; k" := (bind_M m (fun _ => k))
  (at level 61, right associativity).

(** Modelled from the spec: abort.h is missing. [AbortIfNot(cond, ret, ...)]
    leaves the function with [ret] when [cond] is false, [AbortIf(cond, ret)]
    when it is true; the diagnostic they print is not part of the model. *)
Notation "'AbortIfNot' c , r ;; k" := (if c then k else ret r)
  (at level 61, c at next level, r at next level, right associativity).
Notation "'AbortIf' c , r ;; k" := (if c then ret r else k)
  (at level 61, c at next level, r at next level, right associativity).

Definition get_this : M UdpConnection := fun s => (this s, s).

Definition set_remote_addr (a : sockaddr_in) : M unit := fun s =>
  let c := this s in
  (tt, mk_State (mk_UdpConnection (_fd c) (_is_connected c) (_is_init c) a)
         (log s) (world s)).

Definition set_is_connected (b : bool) : M unit := fun s =>
  let c := this s in
  (tt, mk_State (mk_UdpConnection (_fd c) b (_is_init c) (_remote_addr c))
         (log s) (world s)).

(** A call on the operating system: the world moves and the call is
    appended to the log. *)
Definition syscall {A : Type} (f : W -> A * W) (ev : A -> Event) : M A :=
  fun s =>
    let '(a, w') := f (world s) in
    (a, mk_State (this s) (log s ++ [ev a]) w').

Definition sys_socket : M Z := syscall os_socket EvSocket.
Definition sys_gethostbyname (name : string) : M (option hostent) :=
  syscall (os_gethostbyname name)
    (fun he => EvGetHostByName name
                 match he with Some _ => true | None => false end).
Definition sys_bind (fd : Z) (addr : sockaddr_in) : M Z :=
  syscall (os_bind fd addr) (EvBind fd addr).
Definition sys_connect (fd : Z) (addr : sockaddr_in) : M Z :=
  syscall (os_connect fd addr) (EvConnect fd addr).
Definition sys_recvfrom (fd : Z) (size : Z) : M (Z * list Z * sockaddr_in) :=
  syscall (os_recvfrom fd size)
    (fun r => EvRecvFrom fd size (fst (fst r)) (snd r)).
Definition sys_write (fd : Z) (buf : list Z) (size : Z) : M Z :=
  syscall (os_write fd buf size) (EvWrite fd buf size).

(** Modelled from the spec: Fd.h is missing. [Fd] wraps the descriptor;
    its conversion to [bool] tells whether the descriptor is valid, that
    is, whether [::socket()] succeeded. *)
Definition Fd_bool (fd : Z) : bool := 0 <=? fd.

(** Modelled from the spec: Fd.h is missing. [Fd::get()] returns the
    descriptor. *)
Definition Fd_get (fd : Z) : Z := fd.

(** Modelled from the spec: Fd.h is missing. [Fd::can_read(timeout)] waits
    up to [timeout] milliseconds for the descriptor to become readable. *)
Definition Fd_can_read (fd : Z) (timeout : Z) : M bool :=
  syscall (os_can_read fd timeout) (EvCanRead fd timeout).

(** Modelled from the spec: Fd.h is missing. [Fd::can_write(timeout)] waits
    up to [timeout] milliseconds for the descriptor to become writable. *)
Definition Fd_can_write (fd : Z) (timeout : Z) : M bool :=
  syscall (os_can_write fd timeout) (EvCanWrite fd timeout).

(** C's conversion of an [int] to a condition. *)
Definition c_true (x : Z) : bool := negb (x =? 0).

(** *** Member functions *)

(** UdpConnection.cpp:140, [_init_sockaddr(port, name, addr)]. [addr] is a
    reference: the function writes through it and reads nothing else of
    the object. The result here is the returned flag and the content of
    the referent at the return, which does not depend on its content at
    the call (the [memset] covers it); the caller puts it where the
    reference points, a local in [bind] and the member [_remote_addr] in
    [connect]. *)
Definition _init_sockaddr (port : Z) (name : string) : M (bool * sockaddr_in) :=
  let zeroed := mk_sockaddr_in 0 0 (memset 0 4) in
  let addr := mk_sockaddr_in AF_INET (sin_port zeroed) (sin_addr zeroed) in
  let addr := mk_sockaddr_in (sin_family addr) (htons host_order port)
                (sin_addr addr) in
  if (name =? "")%string then
    let addr := mk_sockaddr_in (sin_family addr) (sin_port addr)
                  (object_bytes host_order 4 (htonl host_order INADDR_ANY)) in
    ret (true, addr)
  else
    he <- sys_gethostbyname name ;;
    match he with
    | None => ret (false, addr)
    | Some he =>
        let addr := mk_sockaddr_in (sin_family addr) (sin_port addr)
                      (memcpy (sin_addr addr) (h_addr he) (h_length he)) in
        ret (true, addr)
    end.

(** UdpConnection.cpp:13, the constructor. It leaves [_remote_addr]
    uninitialised: [indeterminate] is whatever the storage holds. *)
Definition UdpConnection_ctor (indeterminate : sockaddr_in) (w : W) : State :=
  let '(fd, w') := os_socket w in
  mk_State (mk_UdpConnection fd false (Fd_bool fd) indeterminate)
           [EvSocket fd] w'.

(** UdpConnection.cpp:37 *)
Definition bind (port : Z) (name : string) : M bool :=
  c <- get_this ;;
  AbortIfNot (_is_init c), false ;;
  '(ok, addr) <- _init_sockaddr port name ;;
  AbortIfNot ok, false ;;
  r <- sys_bind (Fd_get (_fd c)) addr ;;
  AbortIf (c_true r), false ;;
  ret true.

(** UdpConnection.cpp:59; [_init_sockaddr] is handed the member
    [_remote_addr] itself. *)
Definition connect (port : Z) (host : string) : M bool :=
  c <- get_this ;;
  AbortIfNot (_is_init c), false ;;
  '(ok, addr) <- _init_sockaddr port host ;;
  set_remote_addr addr ;;;
  AbortIfNot ok, false ;;
  r <- sys_connect (Fd_get (_fd c)) addr ;;
  AbortIf (c_true r), false ;;
  set_is_connected true ;;;
  ret true.

(** UdpConnection.cpp:87, [recv(char* buf, int size, int timeout)]; the
    result is the returned count and the content of [buf] at the return. *)
Definition recv (buf : list Z) (size : Z) (timeout : Z) : M (Z * list Z) :=
  c <- get_this ;;
  AbortIfNot (_is_init c), (-1, buf) ;;
  ready <- Fd_can_read (_fd c) timeout ;;
  if negb ready then ret (0, buf) else
  '(nbytes, stored, s_addr) <- sys_recvfrom (Fd_get (_fd c)) size ;;
  let buf := memcpy buf stored (List.length stored) in
  AbortIf (nbytes <? 0), (-1, buf) ;;
  ret (nbytes, buf).

(** UdpConnection.cpp:115, [send(const char* buf, int size, int timeout)]. *)
Definition send (buf : list Z) (size : Z) (timeout : Z) : M Z :=
  c <- get_this ;;
  AbortIfNot (_is_init c), (-1) ;;
  AbortIfNot (_is_connected c), (-1) ;;
  ready <- Fd_can_write (_fd c) timeout ;;
  if negb ready then ret 0 else
  nbytes <- sys_write (Fd_get (_fd c)) buf size ;;
  AbortIf (nbytes <? 0), (-1) ;;
  ret nbytes.

(** *** The receive declared in the header *)




(** *** Sequences of calls *)

Inductive Op : Type :=
| OpBind (port : Z) (name : string)
| OpConnect (port : Z) (host : string)
| OpRecv (buf : list Z) (size : Z) (timeout : Z)
| OpSend (buf : list Z) (size : Z) (timeout : Z).

Inductive Result : Type :=
| RBool (b : bool)
| RInt (n : Z)
| RRecv (n : Z) (buf : list Z).

Definition run_op (op : Op) : M Result :=
  match op with
  | OpBind port name => b <- bind port name ;; ret (RBool b)
  | OpConnect port host => b <- connect port host ;; ret (RBool b)
  | OpRecv buf size timeout =>
      '(n, buf') <- recv buf size timeout ;; ret (RRecv n buf')
  | OpSend buf size timeout => n <- send buf size timeout ;; ret (RInt n)
  end.

(** One executed call: the state before, the call, its result, the state
    after. *)
Record Step : Type := mk_Step {
  before : State;
  op_of : Op;
  result : Result;
  after : State
}.

Fixpoint run_ops (ops : list Op) (s : State) : list Step :=
  match ops with
  | [] => []
  | op :: rest =>
      let '(r, s') := run_op op s in
      mk_Step s op r s' :: run_ops rest s'
  end.

Definition final_state (ops : list Op) (s : State) : State :=
  fold_left (fun st op => snd (run_op op st)) ops s.

Definition is_connect (op : Op) : bool :=
  match op with OpConnect _ _ => true | _ => false end.

Definition connect_succeeded (st : Step) : bool :=
  match op_of st, result st with
  | OpConnect _ _, RBool true => true
  | _, _ => false
  end.

Definition conn_state_eqb (a b : ConnState) : bool :=
  match a, b with
  | Uninitialized, Uninitialized | Unconnected, Unconnected
  | Connected, Connected => true
  | _, _ => false
  end.

(** A step that takes the connection from state [a] to state [b]. *)
Definition transition (a b : ConnState) (st : Step) : bool :=
  conn_state_eqb (conn_state (this (before st))) a &&
  conn_state_eqb (conn_state (this (after st))) b.

Definition count_transitions (a b : ConnState) (steps : list Step) : nat :=
  List.length (filter (transition a b) steps).

(** The calls appended to the log between two states. *)
Definition new_events (s s' : State) : list Event :=
  skipn (List.length (log s)) (log s').

(** The descriptor a call was made on; [socket] and the resolver take
    none. *)
Definition event_fd (ev : Event) : option Z :=
  match ev with
  | EvSocket _ | EvGetHostByName _ _ => None
  | EvBind fd _ _ | EvConnect fd _ _ | EvCanRead fd _ _ | EvCanWrite fd _ _
  | EvRecvFrom fd _ _ _ | EvWrite fd _ _ _ => Some fd
  end.

Definition is_socket_call (ev : Event) : bool :=
  match ev with EvSocket _ => true | _ => false end.

(** The calls that do what the member function is for, as opposed to the
    resolver and the readiness waits that come before them. *)
Definition completes (ev : Event) : bool :=
  match ev with
  | EvBind _ _ _ | EvConnect _ _ _ | EvRecvFrom _ _ _ _ | EvWrite _ _ _ _ =>
      true
  | _ => false
  end.

(** The primitives found in the body of each member function, with the
    arguments the member function passes on. *)
Definition may_call (op : Op) (ev : Event) : bool :=
  match op, ev with
  | OpBind _ name, EvGetHostByName n _ => (n =? name)%string
  | OpBind _ _, EvBind _ _ _ => true
  | OpConnect _ host, EvGetHostByName n _ => (n =? host)%string
  | OpConnect _ _, EvConnect _ _ _ => true
  | OpRecv _ _ timeout, EvCanRead _ t _ => t =? timeout
  | OpRecv _ size _, EvRecvFrom _ n _ _ => n =? size
  | OpSend _ _ timeout, EvCanWrite _ t _ => t =? timeout
  | OpSend buf size _, EvWrite _ b n _ =>
      (n =? size) && (if list_eq_dec Z.eq_dec b buf then true else false)
  | _, _ => false
  end.

End Methods.

Arguments State W : clear implicits.
Arguments M W A : clear implicits.
Arguments Step W : clear implicits.

End Udp.

(* ===================================================================== *)
(** ** A small operating system to run the code on *)
(* ===================================================================== *)

Module Sim.
Import Net Udp.

(** The descriptor [socket] hands out, a host table, the results of [bind]
    and [connect], the datagrams queued on the socket with their senders,
    whether the socket is writable, and the datagrams written. *)
Record World : Type := mk_World {
  next_fd : Z;
  hosts : list (string * list Z);
  bind_ret : Z;
  connect_ret : Z;
  inbox : list (list Z * sockaddr_in);
  writable : bool;
  outbox : list (list Z)
}.

Definition with_inbox (w : World) (q : list (list Z * sockaddr_in)) : World :=
  mk_World (next_fd w) (hosts w) (bind_ret w) (connect_ret w) q
           (writable w) (outbox w).

Definition with_outbox (w : World) (q : list (list Z)) : World :=
  mk_World (next_fd w) (hosts w) (bind_ret w) (connect_ret w) (inbox w)
           (writable w) q.

Fixpoint lookup_host (name : string) (tbl : list (string * list Z))
    : option hostent :=
  match tbl with
  | [] => None
  | (n, a) :: rest =>
      if (n =? name)%string then Some (mk_hostent a 4)
      else lookup_host name rest
  end.

Definition nobody : sockaddr_in := mk_sockaddr_in 0 0 [0; 0; 0; 0].

Definition sim_recvfrom (fd size : Z) (w : World)
    : (Z * list Z * sockaddr_in) * World :=
  match inbox w with
  | [] => ((-1, [], nobody), w)
  | (payload, sender) :: rest =>
      let stored := firstn (Z.to_nat size) payload in
      ((Z.of_nat (List.length stored), stored, sender), with_inbox w rest)
  end.

Definition sim_write (fd : Z) (buf : list Z) (size : Z) (w : World)
    : Z * World :=
  (size, with_outbox w (outbox w ++ [firstn (Z.to_nat size) buf])).

Definition os (e : Endianness) : OS World := {|
  host_order := e;
  os_socket := fun w => (next_fd w, w);
  os_gethostbyname := fun name w => (lookup_host name (hosts w), w);
  os_bind := fun _ _ w => (bind_ret w, w);
  os_connect := fun _ _ w => (connect_ret w, w);
  os_can_read := fun _ _ w =>
    (match inbox w with [] => false | _ :: _ => true end, w);
  os_can_write := fun _ _ w => (writable w, w);
  os_recvfrom := sim_recvfrom;
  os_write := sim_write
|}.

Definition peer_a : sockaddr_in := mk_sockaddr_in AF_INET 0x8913 [10; 0; 0; 1].
Definition peer_b : sockaddr_in := mk_sockaddr_in AF_INET 0x8913 [10; 0; 0; 2].

(** A host where every call succeeds, with one datagram from [peer_b]
    queued on the socket. *)
Definition world0 : World :=
  mk_World 3 [("alpha"%string, [10; 0; 0; 1]); ("beta"%string, [10; 0; 0; 2])]
           0 0 [([0x41; 0x42; 0x43], peer_b)] true [].

(** The same host when [socket] fails. *)
Definition world_no_socket : World :=
  mk_World (-1) (hosts world0) 0 0 (inbox world0) true [].

(** A little-endian host. *)
#[export] Instance little : OS World := os LittleEndian.

(** A connection just constructed on [world0]; one whose descriptor could
    not be acquired; and the first one after [connect(5001, "alpha")]. *)
Definition fresh : State World := UdpConnection_ctor nobody world0.
Definition failed : State World := UdpConnection_ctor nobody world_no_socket.
Definition connected_to_alpha : State World :=
  snd (connect 5001 "alpha" fresh).


(** [5001] in network order as a little-endian host holds it. *)
Definition port_5001 : Z := 0x8913.
Definition alpha_addr : sockaddr_in :=
  mk_sockaddr_in AF_INET port_5001 [10; 0; 0; 1].
Definition beta_addr : sockaddr_in :=
  mk_sockaddr_in AF_INET port_5001 [10; 0; 0; 2].

(** Three runs: one in which no [connect] succeeds (the host table has no
    "gamma"), one with two successful [connect] calls, one with none. *)
Definition calls_without_connect : list Op :=
  [OpBind 5001 ""; OpRecv [0; 0; 0; 0] 4 0; OpConnect 5001 "gamma"].

Definition calls_with_two_connects : list Op :=
  [OpSend [1; 2] 2 0; OpConnect 5001 "alpha"; OpSend [1; 2] 2 0;
   OpConnect 5001 "beta"; OpRecv [0; 0; 0; 0] 4 10].

Definition calls_after_connect : list Op :=
  [OpBind 5001 ""; OpRecv [0; 0; 0; 0] 4 0; OpSend [1; 2] 2 0].

End Sim.

(* ===================================================================== *)
(** ** Properties of net.h *)
(* ===================================================================== *)

Module NetFacts.
Import Net.

(** [is_big_endian] reports the byte order of the host. *)
Lemma is_big_endian_spec (e : Endianness) :
  is_big_endian e = match e with BigEndian => true | LittleEndian => false end.
Proof. destruct e; reflexivity. Qed.

Lemma lxor_cancel_l (a b : Z) : Z.lxor a (Z.lxor a b) = b.
Proof. now rewrite <- Z.lxor_assoc, Z.lxor_nilpotent, Z.lxor_0_l. Qed.

(** Inside the lambda the exclusive-or sequence does exchange the two
    parameters. *)
Lemma swap_body_exchanges (a b : Z) : swap_body a b = (b, a).
Proof.
  unfold swap_body.
  assert (Hb : Z.lxor b (Z.lxor a b) = a)
    by (rewrite (Z.lxor_comm a b); apply lxor_cancel_l).
  rewrite Hb. f_equal.
  rewrite (Z.lxor_comm (Z.lxor a b) a). apply lxor_cancel_l.
Qed.

(** A call of the by-value lambda leaves the pointed-to bytes alone. *)
Lemma swap_call_frame (cp : list Z) (i j : nat) : swap_call cp i j = cp.
Proof.
  unfold swap_call. destruct (swap_body (deref cp i) (deref cp j)).
  reflexivity.
Qed.

(** A loop over calls that leave memory alone leaves memory alone. *)
Lemma swap_loop_frame (call : list Z -> nat -> nat -> list Z) :
  (forall mem i j, call mem i j = mem) ->
  forall N cp, swap_loop call N cp = cp.
Proof.
  intros Hcall N cp. unfold swap_loop.
  generalize (seq 0 (N / 2)) as idx.
  induction idx as [|i idx IH]; simpl.
  - reflexivity.
  - rewrite Hcall. exact IH.
Qed.

Lemma to_network_order_id (e : Endianness) (data : list Z) :
  to_network_order e data = data.
Proof.
  unfold to_network_order.
  destruct (negb (is_big_endian e)).
  - apply swap_loop_frame. exact swap_call_frame.
  - reflexivity.
Qed.

(** With a by-reference lambda the same loop reverses two bytes. *)
Example by_ref_reverses_two_bytes (a b : Z) :
  to_network_order_by_ref LittleEndian [a; b] = [b; a].
Proof.
  unfold to_network_order_by_ref, swap_loop, swap_call_by_ref, deref.
  cbn -[swap_body]. rewrite swap_body_exchanges. reflexivity.
Qed.

(** C1. For a built-in 2-byte scalar the template has no instance on
    either host, since [char* cp = &data;] is ill-formed, so applying
    [to_network_order] to such a value yields nothing, neither 0x0102 nor
    0x0201. For a 2-byte object whose address is a [char*], the one kind
    for which there is an instance, 0x0102 comes back as 0x0102 on a
    big-endian host and also on a little-endian host: the bytes in memory
    stay [02 01], where network order asks for 0x0201. *)
Theorem to_network_order_0x0102 :
  (forall e, to_network_order_for_value (Scalar 2) e 0x0102 = None) /\
  is_big_endian BigEndian = true /\
  to_network_order_for_value (CharAddressed 2) BigEndian 0x0102 = Some 0x0102 /\
  is_big_endian LittleEndian = false /\
  object_bytes LittleEndian 2 0x0102 = [0x02; 0x01] /\
  to_network_order_for (CharAddressed 2) LittleEndian [0x02; 0x01] =
    Some [0x02; 0x01] /\
  to_network_order_for_value (CharAddressed 2) LittleEndian 0x0102 =
    Some 0x0102 /\
  to_network_order_for_value (CharAddressed 2) LittleEndian 0x0102 <>
    Some 0x0201.
Proof.
  repeat split; try reflexivity.
  vm_compute. discriminate.
Qed.

(** C2. Whatever the size of the scalar and the byte order of the host,
    [to_network_order] leaves the bytes of its argument as they were: every
    call of the lambda works on copies of the two bytes and hands the
    memory back untouched, although inside the lambda the copies are
    exchanged. *)
Theorem to_network_order_leaves_bytes (e : Endianness) (data : list Z) :
  to_network_order e data = data /\
  (forall cp i j, swap_call cp i j = cp) /\
  (forall a b, swap_body a b = (b, a)).
Proof.
  split; [| split].
  - apply to_network_order_id.
  - exact swap_call_frame.
  - exact swap_body_exchanges.
Qed.

(** C9. Applying [to_network_order] twice gives back the original bytes,
    for every size and on every host. *)
Theorem to_network_order_involution (e : Endianness) (data : list Z) :
  to_network_order e (to_network_order e data) = data.
Proof.
  rewrite (to_network_order_id e (to_network_order e data)).
  apply to_network_order_id.
Qed.

End NetFacts.

(* ===================================================================== *)
(** ** Properties of UdpConnection *)
(* ===================================================================== *)

Module UdpFacts.
Import Net Udp.

Ltac unfold_methods :=
  unfold bind, connect, recv, send, _init_sockaddr, Fd_can_read,
    Fd_can_write, Fd_get, sys_gethostbyname, sys_bind, sys_connect,
    sys_recvfrom, sys_write, syscall, set_remote_addr, set_is_connected,
    get_this, bind_M, ret in *.

Section Facts.
Context {W : Type} {os : OS W}.

Lemma skipn_length_app {A : Type} (l l' : list A) :
  skipn (List.length l) (l ++ l') = l'.
Proof. induction l; simpl; auto. Qed.

Lemma new_events_nil (s : State W) : new_events s s = [].
Proof. unfold new_events. apply skipn_all. Qed.

Lemma new_events_app (s : State W) (c : UdpConnection) (l : list Event) (w : W) :
  new_events s (mk_State c (log s ++ l) w) = l.
Proof. unfold new_events. simpl. apply skipn_length_app. Qed.

Lemma new_events_app2 (s : State W) (c : UdpConnection) (l l' : list Event)
    (w : W) :
  new_events s (mk_State c ((log s ++ l) ++ l') w) = l ++ l'.
Proof. rewrite <- app_assoc. apply new_events_app. Qed.

(** *** What each member function does to the object *)

Lemma init_sockaddr_this (port : Z) (name : string) (s : State W) :
  this (snd (_init_sockaddr port name s)) = this s.
Proof.
  unfold_methods. destruct (name =? "")%string; simpl; auto.
  destruct (os_gethostbyname name (world s)) as [[he|] w']; reflexivity.
Qed.

Lemma bind_this (port : Z) (name : string) (s : State W) :
  this (snd (bind port name s)) = this s.
Proof.
  unfold_methods. destruct (_is_init (this s)); simpl; auto.
  destruct (name =? "")%string; simpl.
  - destruct (os_bind _ _ (world s)) as [r w']. simpl.
    destruct (c_true r); reflexivity.
  - destruct (os_gethostbyname name (world s)) as [[he|] w']; simpl; auto.
    destruct (os_bind _ _ w') as [r w'']. simpl.
    destruct (c_true r); reflexivity.
Qed.

Lemma recv_this (buf : list Z) (size timeout : Z) (s : State W) :
  this (snd (recv buf size timeout s)) = this s.
Proof.
  unfold_methods. destruct (_is_init (this s)); simpl; auto.
  destruct (os_can_read _ _ (world s)) as [[|] w']; simpl; auto.
  destruct (os_recvfrom _ _ w') as [[[n stored] sender] w'']. simpl.
  destruct (n <? 0); reflexivity.
Qed.

Lemma send_this (buf : list Z) (size timeout : Z) (s : State W) :
  this (snd (send buf size timeout s)) = this s.
Proof.
  unfold_methods. destruct (_is_init (this s)); simpl; auto.
  destruct (_is_connected (this s)); simpl; auto.
  destruct (os_can_write _ _ (world s)) as [[|] w']; simpl; auto.
  destruct (os_write _ _ _ w') as [n w'']. simpl.
  destruct (n <? 0); reflexivity.
Qed.

Lemma connect_this (port : Z) (host : string) (s : State W) :
  let r := fst (connect port host s) in
  let c' := this (snd (connect port host s)) in
  _fd c' = _fd (this s) /\
  _is_init c' = _is_init (this s) /\
  _is_connected c' = (_is_connected (this s) || r)%bool /\
  (r = true -> _is_init (this s) = true).
Proof.
  unfold_methods. destruct (_is_init (this s)) eqn:Hi; simpl.
  2: { rewrite Hi, orb_false_r. repeat split; auto. }
  destruct (host =? "")%string; simpl.
  - destruct (os_connect _ _ (world s)) as [r w']. simpl.
    destruct (c_true r); simpl; rewrite ?orb_false_r, ?orb_true_r; auto.
  - destruct (os_gethostbyname host (world s)) as [[he|] w']; simpl.
    + destruct (os_connect _ _ w') as [r w'']. simpl.
      destruct (c_true r); simpl; rewrite ?orb_false_r, ?orb_true_r; auto.
    + rewrite orb_false_r; auto.
Qed.

(** A failed guard on [_is_init] ends each member function at once. *)
Lemma not_init_returns (s : State W) :
  _is_init (this s) = false ->
  forall port name buf size timeout,
    bind port name s = (false, s) /\
    connect port name s = (false, s) /\
    recv buf size timeout s = ((-1, buf), s) /\
    send buf size timeout s = (-1, s).
Proof.
  intros Hi port name buf size timeout.
  unfold_methods. rewrite Hi. auto.
Qed.

Lemma run_op_not_init (s : State W) (op : Op) :
  _is_init (this s) = false -> snd (run_op op s) = s.
Proof.
  intros Hi.
  destruct op as [port name|port host|buf size timeout|buf size timeout];
    unfold run_op, bind_M, ret;
    [ destruct (not_init_returns s Hi port name [] 0 0) as (H & _)
    | destruct (not_init_returns s Hi port host [] 0 0) as (_ & H & _)
    | destruct (not_init_returns s Hi 0 ""%string buf size timeout)
        as (_ & _ & H & _)
    | destruct (not_init_returns s Hi 0 ""%string buf size timeout)
        as (_ & _ & _ & H) ];
    rewrite H; reflexivity.
Qed.

Lemma final_state_not_init (ops : list Op) (s : State W) :
  _is_init (this s) = false -> final_state ops s = s.
Proof.
  intros Hi. induction ops as [|op ops IH]; simpl.
  - reflexivity.
  - unfold final_state in *. simpl. rewrite run_op_not_init by exact Hi.
    exact IH.
Qed.

Lemma ctor_state (g : sockaddr_in) (w : W) :
  let s := UdpConnection_ctor g w in
  _fd (this s) = fst (os_socket w) /\
  _is_init (this s) = (0 <=? fst (os_socket w)) /\
  _is_connected (this s) = false /\
  log s = [EvSocket (fst (os_socket w))].
Proof.
  unfold UdpConnection_ctor. destruct (os_socket w) as [fd w']. simpl.
  unfold Fd_bool. auto.
Qed.


(** *** Steps of a run *)

Lemma run_ops_cons (op : Op) (ops : list Op) (s : State W) :
  run_ops (op :: ops) s =
  mk_Step s op (fst (run_op op s)) (snd (run_op op s))
    :: run_ops ops (snd (run_op op s)).
Proof. simpl. destruct (run_op op s) as [r s']. reflexivity. Qed.

Lemma final_state_cons (op : Op) (ops : list Op) (s : State W) :
  final_state (op :: ops) s = final_state ops (snd (run_op op s)).
Proof. reflexivity. Qed.

Lemma In_run_ops (ops : list Op) (s : State W) (st : Step W) :
  In st (run_ops ops s) ->
  exists s0 op,
    st = mk_Step s0 op (fst (run_op op s0)) (snd (run_op op s0)).
Proof.
  revert s. induction ops as [|op ops IH]; intros s Hin.
  - contradiction.
  - rewrite run_ops_cons in Hin. destruct Hin as [<- | Hin].
    + exists s, op. reflexivity.
    + eapply IH. exact Hin.
Qed.

(** The effect of one call on the object: descriptor and [_is_init] never
    change, [_is_connected] is raised by a successful [connect] and by
    nothing else, and only [connect] touches the object at all. *)
Lemma run_op_this (op : Op) (s : State W) :
  let st := mk_Step s op (fst (run_op op s)) (snd (run_op op s)) in
  _fd (this (after st)) = _fd (this s) /\
  _is_init (this (after st)) = _is_init (this s) /\
  _is_connected (this (after st)) =
    (_is_connected (this s) || connect_succeeded st)%bool /\
  (is_connect op = false -> this (after st) = this s) /\
  (connect_succeeded st = true -> _is_init (this s) = true).
Proof.
  destruct op as [port name|port host|buf size timeout|buf size timeout];
    unfold run_op, bind_M, ret, connect_succeeded; simpl.
  - pose proof (bind_this port name s) as H.
    destruct (bind port name s) as [b s']. simpl in *. rewrite H.
    rewrite orb_false_r. repeat split; auto; discriminate.
  - pose proof (connect_this port host s) as H.
    destruct (connect port host s) as [b s']. simpl in *.
    destruct H as (H1 & H2 & H3 & H4).
    repeat split; auto; try discriminate.
    + rewrite H3. destruct b; reflexivity.
    + destruct b; auto; discriminate.
  - pose proof (recv_this buf size timeout s) as H.
    destruct (recv buf size timeout s) as [[n buf'] s']. simpl in *.
    rewrite H, orb_false_r. repeat split; auto; discriminate.
  - pose proof (send_this buf size timeout s) as H.
    destruct (send buf size timeout s) as [n s']. simpl in *. rewrite H.
    rewrite orb_false_r. repeat split; auto; discriminate.
Qed.

(** The state machine of the documentation, as one call moves it. *)
Lemma conn_state_step (op : Op) (s : State W) :
  let st := mk_Step s op (fst (run_op op s)) (snd (run_op op s)) in
  conn_state (this (after st)) =
  match conn_state (this s) with
  | Unconnected => if connect_succeeded st then Connected else Unconnected
  | other => other
  end.
Proof.
  intros st. destruct (run_op_this op s) as (_ & Hi & Hc & _ & Hs).
  fold st in Hi, Hc, Hs. unfold conn_state. rewrite Hi, Hc.
  destruct (_is_init (this s)); simpl.
  - destruct (_is_connected (this s)); simpl; auto.
  - reflexivity.
Qed.

Lemma transition_step (op : Op) (s : State W) :
  let st := mk_Step s op (fst (run_op op s)) (snd (run_op op s)) in
  transition Unconnected Connected st =
  (conn_state_eqb (conn_state (this s)) Unconnected && connect_succeeded st)%bool.
Proof.
  intros st. unfold transition. fold st.
  replace (this (before st)) with (this s) by reflexivity.
  pose proof (conn_state_step op s) as H. fold st in H. rewrite H.
  destruct (conn_state (this s)); simpl; auto.
  destruct (connect_succeeded st); reflexivity.
Qed.

(** The number of [Unconnected -> Connected] steps of a run: one when the
    run starts unconnected and some [connect] succeeds, none otherwise. *)
Lemma count_transitions_run (ops : list Op) (s : State W) :
  count_transitions Unconnected Connected (run_ops ops s) =
  if (conn_state_eqb (conn_state (this s)) Unconnected &&
      existsb connect_succeeded (run_ops ops s))%bool
  then 1%nat else 0%nat.
Proof.
  revert s. induction ops as [|op ops IH]; intros s.
  - simpl. rewrite andb_false_r. reflexivity.
  - rewrite run_ops_cons. unfold count_transitions in *. simpl filter.
    simpl existsb. rewrite transition_step.
    pose proof (conn_state_step op s) as Hstep. simpl in Hstep.
    set (st := mk_Step s op (fst (run_op op s)) (snd (run_op op s))) in *.
    destruct (conn_state (this s)) eqn:Hs; simpl.
    + rewrite IH, Hstep. reflexivity.
    + destruct (connect_succeeded st); simpl.
      * rewrite IH, Hstep. reflexivity.
      * rewrite IH, Hstep. reflexivity.
    + rewrite IH, Hstep. reflexivity.
Qed.

Lemma no_connect_stays_unconnected (ops : list Op) (s : State W) :
  _is_connected (this s) = false ->
  existsb connect_succeeded (run_ops ops s) = false ->
  _is_connected (this (final_state ops s)) = false.
Proof.
  revert s. induction ops as [|op ops IH]; intros s Hc Hnone.
  - exact Hc.
  - rewrite run_ops_cons in Hnone. simpl in Hnone.
    apply orb_false_iff in Hnone. destruct Hnone as [Hhere Hrest].
    rewrite final_state_cons. apply IH; [| exact Hrest].
    destruct (run_op_this op s) as (_ & _ & H & _). simpl in H.
    rewrite H, Hc, Hhere. reflexivity.
Qed.

Lemma final_state_init (ops : list Op) (s : State W) :
  _is_init (this (final_state ops s)) = _is_init (this s) /\
  _fd (this (final_state ops s)) = _fd (this s).
Proof.
  revert s. induction ops as [|op ops IH]; intros s.
  - auto.
  - rewrite final_state_cons. destruct (IH (snd (run_op op s))) as [H1 H2].
    destruct (run_op_this op s) as (Hfd & Hi & _). simpl in Hfd, Hi.
    rewrite H1, H2. auto.
Qed.

(** [send] on an initialised object that is not connected. *)
Lemma send_unconnected (buf : list Z) (size timeout : Z) (s : State W) :
  _is_init (this s) = true -> _is_connected (this s) = false ->
  send buf size timeout s = (-1, s).
Proof. intros Hi Hc. unfold_methods. rewrite Hi, Hc. reflexivity. Qed.

(** [connect] returns [true] only after the operating system connected the
    descriptor to the address now stored in [_remote_addr]. *)
Lemma connect_success_log (port : Z) (host : string) (s : State W) :
  fst (connect port host s) = true ->
  exists pre,
    log (snd (connect port host s)) =
    pre ++ [EvConnect (_fd (this s))
              (_remote_addr (this (snd (connect port host s)))) 0].
Proof.
  unfold_methods. unfold c_true. destruct (_is_init (this s)); simpl.
  2: discriminate.
  destruct (host =? "")%string; simpl.
  - destruct (os_connect _ _ (world s)) as [r w']. simpl.
    destruct (Z.eqb_spec r 0); simpl; [| discriminate].
    intros _. subst r. eexists. reflexivity.
  - destruct (os_gethostbyname host (world s)) as [[he|] w']; simpl.
    2: discriminate.
    destruct (os_connect _ _ w') as [r w'']. simpl.
    destruct (Z.eqb_spec r 0); simpl; [| discriminate].
    intros _. subst r. eexists. reflexivity.
Qed.


(** *** The documented properties *)

(** C3. On a connection whose descriptor was acquired and on which no
    [connect] call has succeeded, [send] returns the error result -1 and
    leaves the object, the log and the operating system as they were: it
    reaches neither the wait for writability nor the write. *)
Theorem send_before_connect (g : sockaddr_in) (w : W) (ops : list Op)
    (buf : list Z) (size timeout : Z) :
  let s0 := UdpConnection_ctor g w in
  let s := final_state ops s0 in
  _is_init (this s0) = true ->
  existsb connect_succeeded (run_ops ops s0) = false ->
  conn_state (this s) = Unconnected /\
  send buf size timeout s = (-1, s) /\
  new_events s (snd (send buf size timeout s)) = [] /\
  (forall fd t r, ~ In (EvCanWrite fd t r)
                       (new_events s (snd (send buf size timeout s)))) /\
  (forall fd b n r, ~ In (EvWrite fd b n r)
                         (new_events s (snd (send buf size timeout s)))).
Proof.
  intros s0 s Hinit Hnone.
  assert (Hi : _is_init (this s) = true).
  { unfold s. rewrite (proj1 (final_state_init ops s0)). exact Hinit. }
  assert (Hc : _is_connected (this s) = false).
  { apply no_connect_stays_unconnected; [| exact Hnone].
    apply (ctor_state g w). }
  assert (Hsend : send buf size timeout s = (-1, s))
    by (apply send_unconnected; assumption).
  rewrite Hsend. simpl. rewrite new_events_nil.
  repeat split; auto.
  unfold conn_state. rewrite Hi, Hc. reflexivity.
Qed.

(** C4. In every run of calls: a [connect] that returns [true] leaves the
    connection Connected; a step from Unconnected to Connected is always a
    [connect] that returned [true]; a Connected connection stays Connected;
    and the step from Unconnected to Connected is taken at most once, and
    exactly once when the run starts Unconnected and contains a [connect]
    that returns [true]. *)
Theorem connected_transition_once (s : State W) (ops : list Op) :
  let steps := run_ops ops s in
  (forall st, In st steps -> connect_succeeded st = true ->
     conn_state (this (after st)) = Connected) /\
  (forall st, In st steps -> transition Unconnected Connected st = true ->
     connect_succeeded st = true) /\
  (forall st, In st steps -> conn_state (this (before st)) = Connected ->
     conn_state (this (after st)) = Connected) /\
  (count_transitions Unconnected Connected steps <= 1)%nat /\
  (conn_state (this s) = Unconnected ->
   existsb connect_succeeded steps = true ->
   count_transitions Unconnected Connected steps = 1%nat) /\
  count_transitions Connected Unconnected steps = 0%nat.
Proof.
  intros steps. repeat split.
  - intros st Hin Hok.
    destruct (In_run_ops _ _ _ Hin) as (s0 & op & ->).
    destruct (run_op_this op s0) as (_ & Hi & Hc & _ & Hs).
    unfold conn_state. rewrite Hi, Hc, Hok, (Hs Hok), orb_true_r.
    reflexivity.
  - intros st Hin Htr.
    destruct (In_run_ops _ _ _ Hin) as (s0 & op & ->).
    rewrite transition_step in Htr. apply andb_true_iff in Htr. apply Htr.
  - intros st Hin Hbefore.
    destruct (In_run_ops _ _ _ Hin) as (s0 & op & ->).
    rewrite conn_state_step. simpl in Hbefore. rewrite Hbefore. reflexivity.
  - unfold steps. rewrite count_transitions_run.
    destruct (_ && _)%bool; auto.
  - intros Hs Hex. unfold steps in *. rewrite count_transitions_run, Hs, Hex.
    reflexivity.
  - unfold count_transitions.
    assert (Hnone : forall st, In st steps ->
              transition Connected Unconnected st = false).
    { intros st Hin. destruct (In_run_ops _ _ _ Hin) as (s0 & op & ->).
      unfold transition. rewrite conn_state_step. simpl before.
      destruct (conn_state (this s0)); simpl; auto. }
    induction steps as [|st rest IH]; simpl.
    + reflexivity.
    + rewrite (Hnone st (or_introl eq_refl)). apply IH.
      intros st' Hin. apply Hnone. right. exact Hin.
Qed.

(** C6. When the descriptor could not be acquired the connection is
    Uninitialized for good, and then [bind] and [connect] return [false]
    and [recv] and [send] return -1 without resolving a name, waiting for
    readiness or doing I/O: object, log and operating system are as
    before, and the log holds the [socket] call alone. *)
Theorem uninitialized_operations_fail (g : sockaddr_in) (w : W)
    (ops : list Op) (port : Z) (name : string) (buf : list Z)
    (size timeout : Z) :
  let s0 := UdpConnection_ctor g w in
  let s := final_state ops s0 in
  conn_state (this s0) = Uninitialized ->
  conn_state (this s) = Uninitialized /\
  log s = [EvSocket (fst (os_socket w))] /\
  bind port name s = (false, s) /\
  connect port name s = (false, s) /\
  recv buf size timeout s = ((-1, buf), s) /\
  send buf size timeout s = (-1, s).
Proof.
  intros s0 s Hun.
  assert (Hi : _is_init (this s0) = false).
  { unfold conn_state in Hun. destruct (_is_init (this s0)); simpl in Hun.
    - destruct (_is_connected (this s0)); discriminate.
    - reflexivity. }
  assert (Hs : s = s0) by (apply final_state_not_init; exact Hi).
  rewrite Hs. split; [exact Hun |]. split; [apply (ctor_state g w) |].
  apply not_init_returns. exact Hi.
Qed.


(** [recv] on an initialised object, call by call. *)
Lemma recv_init (buf : list Z) (size timeout : Z) (s : State W) :
  _is_init (this s) = true ->
  recv buf size timeout s =
  let fd := _fd (this s) in
  let '(ready, w1) := os_can_read fd timeout (world s) in
  if ready then
    let '((n, stored, sender), w2) := os_recvfrom fd size w1 in
    ((if n <? 0 then -1 else n, memcpy buf stored (List.length stored)),
     mk_State (this s)
       ((log s ++ [EvCanRead fd timeout true]) ++ [EvRecvFrom fd size n sender])
       w2)
  else ((0, buf), mk_State (this s) (log s ++ [EvCanRead fd timeout false]) w1).
Proof.
  intros Hi. unfold_methods. rewrite Hi. simpl.
  destruct (os_can_read _ _ (world s)) as [[|] w1]; simpl; auto.
  destruct (os_recvfrom _ _ w1) as [[[n stored] sender] w2]. simpl.
  destruct (n <? 0); reflexivity.
Qed.


(** The [recv(char*, int, int)] of UdpConnection.cpp has no parameter
    asking for the connected peer. When the descriptor is readable it makes
    one datagram read, handing on the [size] it was given, and returns the
    count and the bytes of that read whoever sent them: the result depends
    on neither [_is_connected] nor [_remote_addr]. *)
Lemma recv_single_read_any_sender (s : State W) (buf : list Z)
    (size timeout : Z) :
  _is_init (this s) = true ->
  let fd := _fd (this s) in
  fst (os_can_read fd timeout (world s)) = true ->
  let w1 := snd (os_can_read fd timeout (world s)) in
  let n := fst (fst (fst (os_recvfrom fd size w1))) in
  let stored := snd (fst (fst (os_recvfrom fd size w1))) in
  let sender := snd (fst (os_recvfrom fd size w1)) in
  new_events s (snd (recv buf size timeout s)) =
    [EvCanRead fd timeout true; EvRecvFrom fd size n sender] /\
  fst (recv buf size timeout s) =
    (if n <? 0 then -1 else n, memcpy buf stored (List.length stored)) /\
  (forall connected remote,
     fst (recv buf size timeout
            (mk_State (mk_UdpConnection fd connected true remote)
                      (log s) (world s))) =
     fst (recv buf size timeout s)).
Proof.
  intros Hi fd Hready w1 n stored sender.
  assert (Hforall : forall c, _is_init c = true -> _fd c = fd ->
    recv buf size timeout (mk_State c (log s) (world s)) =
    ((if n <? 0 then -1 else n, memcpy buf stored (List.length stored)),
     mk_State c
       ((log s ++ [EvCanRead fd timeout true]) ++ [EvRecvFrom fd size n sender])
       (snd (os_recvfrom fd size w1)))).
  { intros c Hc Hfd. rewrite recv_init by exact Hc. simpl. rewrite Hfd.
    subst n stored sender w1.
    destruct (os_can_read fd timeout (world s)) as [ready w1].
    simpl in Hready. subst ready. simpl.
    destruct (os_recvfrom fd size w1) as [[[n stored] sender] w2].
    reflexivity. }
  assert (Hs : s = mk_State (this s) (log s) (world s))
    by (destruct s; reflexivity).
  pose proof (Hforall (this s) Hi eq_refl) as Hrecv.
  rewrite <- Hs in Hrecv. rewrite Hrecv. simpl.
  split; [| split].
  - unfold new_events. simpl. rewrite <- app_assoc.
    apply skipn_length_app.
  - reflexivity.
  - intros connected remote. rewrite Hforall by reflexivity. reflexivity.
Qed.

(** C7. A call other than [connect] leaves [_remote_addr] as it was, so
    the address captured by a [connect] stays through any run of [bind],
    [recv] and [send]; a later [connect] that returns [true] has stored the
    address it connected the descriptor to. *)
Theorem remote_addr_changed_only_by_connect (s : State W) (ops : list Op) :
  (forall st, In st (run_ops ops s) -> is_connect (op_of st) = false ->
     _remote_addr (this (after st)) = _remote_addr (this (before st))) /\
  (forallb (fun op => negb (is_connect op)) ops = true ->
     _remote_addr (this (final_state ops s)) = _remote_addr (this s)) /\
  (forall st, In st (run_ops ops s) -> connect_succeeded st = true ->
     exists pre,
       log (after st) =
       pre ++ [EvConnect (_fd (this (before st)))
                 (_remote_addr (this (after st))) 0]).
Proof.
  split; [| split].
  - intros st Hin Hop.
    destruct (In_run_ops _ _ _ Hin) as (s0 & op & ->). simpl in *.
    destruct (run_op_this op s0) as (_ & _ & _ & Hsame & _).
    simpl in Hsame. rewrite (Hsame Hop). reflexivity.
  - revert s. induction ops as [|op ops IH]; intros s Hall.
    + reflexivity.
    + simpl in Hall. apply andb_true_iff in Hall. destruct Hall as [Hop Hall].
      rewrite final_state_cons, (IH _ Hall).
      destruct (run_op_this op s) as (_ & _ & _ & Hsame & _).
      simpl in Hsame. rewrite Hsame; [reflexivity |].
      destruct (is_connect op); [discriminate | reflexivity].
  - intros st Hin Hok.
    destruct (In_run_ops _ _ _ Hin) as (s0 & op & ->).
    unfold connect_succeeded in Hok. simpl in *.
    destruct op as [| port host | |]; try discriminate.
    unfold run_op, bind_M, ret in *.
    pose proof (connect_success_log port host s0) as Hlog.
    destruct (connect port host s0) as [b s']. simpl in *.
    destruct b; [| discriminate]. apply Hlog. reflexivity.
Qed.


(** The wildcard address: [htonl(INADDR_ANY)] is stored as four zero
    bytes on either host. *)
Lemma inaddr_any_bytes :
  object_bytes host_order 4 (htonl host_order INADDR_ANY) = [0; 0; 0; 0].
Proof. destruct host_order; reflexivity. Qed.

Lemma init_sockaddr_empty (port : Z) (s : State W) :
  _init_sockaddr port ""%string s =
  ((true, mk_sockaddr_in AF_INET (htons host_order port) [0; 0; 0; 0]), s).
Proof. unfold_methods. simpl. rewrite inaddr_any_bytes. reflexivity. Qed.



(** [bind], case by case. *)
Lemma bind_cases (s : State W) (port : Z) (name : string) :
  let fd := _fd (this s) in
  let any := mk_sockaddr_in AF_INET (htons host_order port) [0; 0; 0; 0] in
  let he := fst (os_gethostbyname name (world s)) in
  let w1 := snd (os_gethostbyname name (world s)) in
  (_is_init (this s) = false -> bind port name s = (false, s)) /\
  (_is_init (this s) = true -> name = ""%string ->
     let ret := fst (os_bind fd any (world s)) in
     bind port name s =
     (ret =? 0,
      mk_State (this s) (log s ++ [EvBind fd any ret])
        (snd (os_bind fd any (world s))))) /\
  (_is_init (this s) = true -> name <> ""%string -> he = None ->
     bind port name s =
     (false, mk_State (this s) (log s ++ [EvGetHostByName name false]) w1)) /\
  (forall h, _is_init (this s) = true -> name <> ""%string -> he = Some h ->
     let addr := mk_sockaddr_in AF_INET (htons host_order port)
                   (memcpy [0; 0; 0; 0] (h_addr h) (h_length h)) in
     let ret := fst (os_bind fd addr w1) in
     bind port name s =
     (ret =? 0,
      mk_State (this s)
        (log s ++ [EvGetHostByName name true; EvBind fd addr ret])
        (snd (os_bind fd addr w1)))).
Proof.
  cbv zeta. split; [| split; [| split]].
  - intros Hi. apply (not_init_returns s Hi port name [] 0 0).
  - intros Hi ->. unfold bind, bind_M, get_this. rewrite Hi.
    rewrite init_sockaddr_empty. unfold_methods. unfold c_true. simpl.
    destruct (os_bind _ _ (world s)) as [ret w']. simpl.
    destruct (ret =? 0); reflexivity.
  - intros Hi Hname Hhe. unfold_methods. rewrite Hi. simpl.
    destruct (String.eqb_spec name ""); [contradiction |]. simpl.
    destruct (os_gethostbyname name (world s)) as [he w1]. simpl in *.
    subst he. reflexivity.
  - intros h Hi Hname Hhe. unfold_methods. unfold c_true. rewrite Hi. simpl.
    destruct (String.eqb_spec name ""); [contradiction |]. simpl.
    destruct (os_gethostbyname name (world s)) as [he w1]. simpl in *.
    subst he. simpl.
    destruct (os_bind _ _ w1) as [ret w']. simpl.
    rewrite <- app_assoc. destruct (ret =? 0); reflexivity.
Qed.

(** C8. [bind] with an empty name resolves, without asking the resolver,
    to the address [AF_INET], the port in network order, 0.0.0.0
    ([INADDR_ANY]), and on an initialised connection passes that address to
    the operating system's [bind]. [bind] returns [false] exactly when the
    descriptor is invalid, or the resolver did not find the name, or the
    operating system's [bind] returned non-zero; otherwise it returns
    [true]. In full: on an invalid descriptor it returns [false] and calls
    nothing; with an empty name it calls [bind] on the wildcard address and
    returns whether the result was 0; with a name the resolver does not
    find it returns [false] after the resolver call alone; with a name the
    resolver finds it calls [bind] on the address found and returns whether
    the result was 0. *)
Theorem bind_results (s : State W) (port : Z) (name : string) :
  let r := fst (bind port name s) in
  let s' := snd (bind port name s) in
  let any := mk_sockaddr_in AF_INET (htons host_order port) [0; 0; 0; 0] in
  let fd := _fd (this s) in
  let he := fst (os_gethostbyname name (world s)) in
  let w1 := snd (os_gethostbyname name (world s)) in
  (name = ""%string ->
     _init_sockaddr port name s = ((true, any), s) /\
     (_is_init (this s) = true ->
      exists ret, new_events s s' = [EvBind (_fd (this s)) any ret])) /\
  (r = false <->
     _is_init (this s) = false \/
     In (EvGetHostByName name false) (new_events s s') \/
     (exists addr ret,
        ret <> 0 /\ In (EvBind (_fd (this s)) addr ret) (new_events s s'))) /\
  (_is_init (this s) = false -> bind port name s = (false, s)) /\
  (_is_init (this s) = true -> name = ""%string ->
     let ret := fst (os_bind fd any (world s)) in
     bind port name s =
     (ret =? 0,
      mk_State (this s) (log s ++ [EvBind fd any ret])
        (snd (os_bind fd any (world s))))) /\
  (_is_init (this s) = true -> name <> ""%string -> he = None ->
     bind port name s =
     (false, mk_State (this s) (log s ++ [EvGetHostByName name false]) w1)) /\
  (forall h, _is_init (this s) = true -> name <> ""%string -> he = Some h ->
     let addr := mk_sockaddr_in AF_INET (htons host_order port)
                   (memcpy [0; 0; 0; 0] (h_addr h) (h_length h)) in
     let ret := fst (os_bind fd addr w1) in
     bind port name s =
     (ret =? 0,
      mk_State (this s)
        (log s ++ [EvGetHostByName name true; EvBind fd addr ret])
        (snd (os_bind fd addr w1)))).
Proof.
  cbv zeta. split; [| split].
  - intros ->. split; [apply init_sockaddr_empty |].
    intros Hi. unfold bind, bind_M, get_this. rewrite Hi.
    rewrite init_sockaddr_empty. unfold_methods. simpl.
    destruct (os_bind _ _ (world s)) as [ret w']. simpl.
    exists ret. destruct (c_true ret); simpl; apply new_events_app.
  - unfold_methods. unfold c_true.
    destruct (_is_init (this s)) eqn:Hi; simpl.
    2: { rewrite new_events_nil. split; auto. }
    destruct (name =? "")%string; simpl.
    + destruct (os_bind _ _ (world s)) as [ret w']. simpl.
      destruct (Z.eqb_spec ret 0) as [Hz|Hnz]; simpl;
        rewrite new_events_app.
      * split; [discriminate |].
        intros [H | [[H | []] | (a & r & Hr & [H | []])]];
          try discriminate.
        inversion H. congruence.
      * split; [| reflexivity]. intros _. right. right.
        eexists _, ret. split; [exact Hnz | left; reflexivity].
    + destruct (os_gethostbyname name (world s)) as [[he|] w1]; simpl.
      * destruct (os_bind _ _ w1) as [ret w']. simpl.
        destruct (Z.eqb_spec ret 0) as [Hz|Hnz]; simpl;
          rewrite new_events_app2.
        -- split; [discriminate |].
           intros [H | [[H | [H | []]] | (a & r & Hr & [H | [H | []]])]];
             try discriminate.
           inversion H. congruence.
        -- split; [| reflexivity]. intros _. right. right.
           eexists _, ret. split; [exact Hnz | right; left; reflexivity].
      * rewrite new_events_app. split; [| reflexivity].
        intros _. right. left. left. reflexivity.
  - exact (bind_cases s port name).
Qed.

End Facts.

(** *** Runs on the simulated host *)

Import Sim.

Lemma send_before_connect_witness :
  let s := final_state calls_without_connect fresh in
  _is_init (this fresh) = true /\
  existsb connect_succeeded (run_ops calls_without_connect fresh) = false /\
  send [0x41] 1 0 s = (-1, s).
Proof.
  split; [reflexivity |]. split; [reflexivity |].
  apply (send_before_connect nobody world0 calls_without_connect [0x41] 1 0);
    reflexivity.
Defined.

Lemma connected_transition_once_witness :
  conn_state (this fresh) = Unconnected /\
  existsb connect_succeeded (run_ops calls_with_two_connects fresh) = true /\
  count_transitions Unconnected Connected
    (run_ops calls_with_two_connects fresh) = 1%nat.
Proof.
  split; [reflexivity |]. split; [reflexivity |].
  apply (connected_transition_once fresh calls_with_two_connects);
    reflexivity.
Defined.


Lemma uninitialized_operations_fail_witness :
  conn_state (this failed) = Uninitialized /\
  connect 5001 "alpha" (final_state calls_with_two_connects failed) =
    (false, final_state calls_with_two_connects failed).
Proof.
  split; [reflexivity |].
  apply (uninitialized_operations_fail nobody world_no_socket
           calls_with_two_connects 5001 "alpha" [] 0 0).
  reflexivity.
Defined.

Lemma remote_addr_changed_only_by_connect_witness :
  forallb (fun op => negb (is_connect op)) calls_after_connect = true /\
  _remote_addr (this (final_state calls_after_connect connected_to_alpha)) =
  _remote_addr (this connected_to_alpha).
Proof.
  split; [reflexivity |].
  apply (remote_addr_changed_only_by_connect connected_to_alpha
           calls_after_connect).
  reflexivity.
Defined.

Lemma bind_results_witness :
  _is_init (this fresh) = true /\
  (exists ret,
     new_events fresh (snd (bind 5001 "" fresh)) =
     [EvBind 3 (mk_sockaddr_in AF_INET port_5001 [0; 0; 0; 0]) ret]) /\
  fst (os_gethostbyname "gamma" (world fresh)) = None /\
  fst (bind 5001 "gamma" fresh) = false.
Proof.
  split; [reflexivity |]. split.
  - destruct (bind_results fresh 5001 "") as (H & _).
    apply (H eq_refl). reflexivity.
  - split; [reflexivity |].
    destruct (bind_results fresh 5001 "gamma") as (_ & _ & _ & _ & H & _).
    rewrite H; [reflexivity | reflexivity | discriminate | reflexivity].
Defined.

Lemma recv_single_read_any_sender_witness :
  _is_init (this connected_to_alpha) = true /\
  fst (os_can_read 3 10 (world connected_to_alpha)) = true /\
  fst (recv [0; 0; 0; 0] 4 10 connected_to_alpha) = (3, [0x41; 0x42; 0x43; 0]).
Proof.
  split; [reflexivity |]. split; [reflexivity |].
  assert (Hready : fst (os_can_read (_fd (this connected_to_alpha)) 10
                            (world connected_to_alpha)) = true)
    by reflexivity.
  destruct (recv_single_read_any_sender connected_to_alpha [0; 0; 0; 0] 4 10
              eq_refl Hready) as (_ & H & _).
  exact H.
Defined.


(** C7, as the specification words it, fails: a second [connect] replaces
    the address the first one captured. *)
Lemma remote_addr_overwritten_by_second_connect :
  let s1 := connected_to_alpha in
  let s2 := snd (connect 5001 "beta" s1) in
  fst (connect 5001 "alpha" fresh) = true /\
  _remote_addr (this s1) = alpha_addr /\
  fst (connect 5001 "beta" s1) = true /\
  _remote_addr (this s2) = beta_addr /\
  _remote_addr (this s2) <> _remote_addr (this s1).
Proof.
  cbv zeta. repeat split; try reflexivity.
  vm_compute. discriminate.
Qed.

(** A [connect] that fails in the resolver has already cleared the stored
    address. *)
Example remote_addr_cleared_by_failed_connect :
  fst (connect 5001 "gamma" connected_to_alpha) = false /\
  _remote_addr (this (snd (connect 5001 "gamma" connected_to_alpha))) =
    mk_sockaddr_in AF_INET port_5001 [0; 0; 0; 0] /\
  conn_state (this (snd (connect 5001 "gamma" connected_to_alpha))) = Connected.
Proof. repeat split; reflexivity. Qed.

End UdpFacts.

(* ===================================================================== *)
(** ** Further properties of net.h *)
(* ===================================================================== *)

Module NetMore.
Import Net.

Lemma le_bytes_zero (n : nat) : le_bytes n 0 = repeat 0 n.
Proof. induction n; simpl; [reflexivity | f_equal; exact IHn]. Qed.

Lemma le_bytes_one (n : nat) : le_bytes (S n) 1 = 1 :: repeat 0 n.
Proof. simpl. f_equal. apply le_bytes_zero. Qed.

Lemma rev_repeat {A : Type} (a : A) (n : nat) : rev (repeat a n) = repeat a n.
Proof.
  induction n; simpl; [reflexivity |].
  rewrite IHn. clear IHn. induction n; simpl; [reflexivity |].
  f_equal. exact IHn.
Qed.

(** X1. The endianness test answers the byte order of the host whenever an
    [int] has at least two bytes, in particular for the four-byte [int];
    with a one-byte [int] it would report little-endian on every host. *)
Theorem is_big_endian_host_order (n : nat) (e : Endianness) :
  (2 <= n)%nat ->
  (is_big_endian e = true <-> e = BigEndian) /\
  (is_big_endian_sized n e = true <-> e = BigEndian) /\
  is_big_endian_sized 1 e = false.
Proof.
  intros Hn. split; [| split].
  - destruct e; simpl; split; intros H; try reflexivity; discriminate.
  - destruct n as [|[|n]]; try lia.
    unfold is_big_endian_sized, object_bytes.
    rewrite le_bytes_one. destruct e.
    + cbn [rev]. rewrite rev_repeat. simpl. split; reflexivity.
    + simpl. split; intros H; discriminate.
  - destruct e; reflexivity.
Qed.

Lemma is_big_endian_host_order_witness :
  (2 <= 2)%nat /\ (is_big_endian_sized 2 BigEndian = true <-> BigEndian = BigEndian).
Proof.
  split; [lia |].
  apply (is_big_endian_host_order 2 BigEndian). lia.
Defined.

(** *** The loop as a reversal *)

Lemma store_head (a : Z) (cp : list Z) (v : Z) : store (a :: cp) 0 v = v :: cp.
Proof. reflexivity. Qed.

Lemma store_tail (a : Z) (cp : list Z) (i : nat) (v : Z) :
  store (a :: cp) (S i) v = a :: store cp i v.
Proof. reflexivity. Qed.

Lemma store_length (cp : list Z) (i : nat) (v : Z) :
  List.length (store cp i v) = List.length cp.
Proof.
  revert i. induction cp as [|a cp IH]; intros [|i]; try reflexivity.
  rewrite store_tail. simpl. f_equal. apply IH.
Qed.

Lemma deref_store (cp : list Z) (i k : nat) (v : Z) :
  (i < List.length cp)%nat ->
  deref (store cp i v) k = if (k =? i)%nat then v else deref cp k.
Proof.
  unfold deref. revert i k. induction cp as [|a cp IH]; intros i k Hi.
  - simpl in Hi. lia.
  - destruct i as [|i].
    + rewrite store_head. destruct k; reflexivity.
    + rewrite store_tail. destruct k as [|k]; [reflexivity |].
      simpl. apply IH. simpl in Hi. lia.
Qed.

Lemma deref_exchange (cp : list Z) (i j k : nat) :
  (i < List.length cp)%nat -> (j < List.length cp)%nat ->
  deref (exchange cp i j) k =
  if (k =? j)%nat then deref cp i
  else if (k =? i)%nat then deref cp j else deref cp k.
Proof.
  intros Hi Hj. unfold exchange.
  rewrite deref_store by (rewrite store_length; exact Hj).
  rewrite deref_store by exact Hi. reflexivity.
Qed.

Lemma exchange_length (cp : list Z) (i j : nat) :
  List.length (exchange cp i j) = List.length cp.
Proof. unfold exchange. now rewrite !store_length. Qed.

(** The by-reference lambda is such an exchanging call. *)
Lemma swap_call_by_ref_exchanges (cp : list Z) (i j : nat) :
  swap_call_by_ref cp i j = exchange cp i j.
Proof.
  unfold swap_call_by_ref, exchange.
  rewrite NetFacts.swap_body_exchanges. reflexivity.
Qed.

Section Reversal.
Variable call : list Z -> nat -> nat -> list Z.
Hypothesis call_exchanges : forall mem i j,
  (i < List.length mem)%nat -> (j < List.length mem)%nat -> i <> j ->
  call mem i j = exchange mem i j.
Variables (cp : list Z) (N : nat).
Hypothesis size_of : N = List.length cp.

Lemma loop_rounds_S (m : nat) :
  loop_rounds call N cp (S m) =
  call (loop_rounds call N cp m) m (N - m - 1)%nat.
Proof.
  unfold loop_rounds. rewrite seq_S, fold_left_app. reflexivity.
Qed.

(** After [m] rounds the first [m] and the last [m] bytes are those of
    the reversed sequence, the ones between are still in place. *)
Lemma loop_rounds_inv (m : nat) :
  (2 * m <= N)%nat ->
  List.length (loop_rounds call N cp m) = N /\
  forall k, (k < N)%nat ->
    deref (loop_rounds call N cp m) k =
    if ((k <? m)%nat || (N - m <=? k)%nat)%bool
    then deref cp (N - 1 - k) else deref cp k.
Proof.
  induction m as [|m IH]; intros Hm.
  - split; [symmetry; exact size_of |]. intros k Hk. simpl.
    destruct (Nat.leb_spec (N - 0) k); [lia | reflexivity].
  - destruct IH as [Hlen Hnth]; [lia |].
    rewrite loop_rounds_S.
    rewrite call_exchanges by (rewrite ?Hlen; lia).
    split; [rewrite exchange_length; exact Hlen |].
    intros k Hk. rewrite deref_exchange by (rewrite Hlen; lia).
    destruct (Nat.eqb_spec k (N - m - 1)) as [-> | Hk1].
    + rewrite Hnth by lia.
      destruct (Nat.ltb_spec m m); [lia |].
      destruct (Nat.leb_spec (N - m) m); [lia |]. simpl.
      destruct (Nat.ltb_spec (N - m - 1) (S m)); simpl;
        [f_equal; lia |].
      destruct (Nat.leb_spec (N - S m) (N - m - 1)); [f_equal; lia | lia].
    + destruct (Nat.eqb_spec k m) as [-> | Hk2].
      * rewrite Hnth by lia.
        destruct (Nat.ltb_spec (N - m - 1) m); [lia |].
        destruct (Nat.leb_spec (N - m) (N - m - 1)); [lia |]. simpl.
        destruct (Nat.ltb_spec m (S m)); [| lia]. simpl. f_equal. lia.
      * rewrite Hnth by lia.
        destruct (Nat.ltb_spec k m), (Nat.ltb_spec k (S m)),
          (Nat.leb_spec (N - m) k), (Nat.leb_spec (N - S m) k);
          simpl; try reflexivity; lia.
Qed.

End Reversal.

(** The loop of [to_network_order] pairs byte [i] with byte [N-i-1] for
    [i < N/2]: with a call that exchanges the two bytes it is handed, it
    leaves the byte sequence reversed, for every size [N]. *)
Theorem swap_loop_reverses (call : list Z -> nat -> nat -> list Z)
    (cp : list Z) :
  (forall mem i j,
     (i < List.length mem)%nat -> (j < List.length mem)%nat -> i <> j ->
     call mem i j = exchange mem i j) ->
  swap_loop call (List.length cp) cp = rev cp.
Proof.
  intros Hcall.
  pose proof (Nat.div_mod_eq (List.length cp) 2) as Hdiv.
  pose proof (Nat.mod_upper_bound (List.length cp) 2) as Hmod.
  destruct (loop_rounds_inv call Hcall cp (List.length cp) eq_refl
              (List.length cp / 2)) as [Hlen Hnth]; [lia |].
  unfold loop_rounds in Hlen, Hnth. unfold swap_loop.
  apply (nth_ext _ _ 0 0).
  - rewrite Hlen, length_rev. reflexivity.
  - intros k Hk. rewrite Hlen in Hk.
    rewrite rev_nth by exact Hk. unfold deref in Hnth. rewrite Hnth by exact Hk.
    destruct (Nat.ltb_spec k (List.length cp / 2)),
      (Nat.leb_spec (List.length cp - List.length cp / 2) k);
      simpl; f_equal; lia.
Qed.

Lemma swap_loop_reverses_witness :
  swap_loop swap_call_by_ref 5 [1; 2; 3; 4; 5] = [5; 4; 3; 2; 1].
Proof.
  apply (swap_loop_reverses swap_call_by_ref [1; 2; 3; 4; 5]).
  intros mem i j _ _ _. apply swap_call_by_ref_exchanges.
Defined.

End NetMore.

(* ===================================================================== *)
(** ** Further properties of UdpConnection *)
(* ===================================================================== *)

Module UdpMore.
Import Net Udp UdpFacts.

Ltac break_in :=
  repeat match goal with
  | H : In _ _ |- _ => simpl in H
  | H : _ \/ _ |- _ => destruct H
  | H : _ /\ _ |- _ => destruct H
  | H : exists _, _ |- _ => destruct H
  | H : False |- _ => destruct H
  end.

Section More.
Context {W : Type} {os : OS W}.

Lemma new_events_none (s : State W) (c : UdpConnection) (w : W) :
  new_events s (mk_State c (log s) w) = [].
Proof. unfold new_events. simpl. apply skipn_all. Qed.

Lemma memset_4 : memset 0 4 = [0; 0; 0; 0].
Proof. reflexivity. Qed.

(** *** _init_sockaddr *)

(** X3. [_init_sockaddr] always leaves [AF_INET] and the port in network
    order in [addr]. It asks the resolver
    once when the name is not empty and not at all when it is, and returns
    [false] exactly when the name is not empty and the resolver returns
    [NULL]; [sin_addr] is then all zero. A four-byte address found by the
    resolver is copied to [sin_addr]. *)
Theorem init_sockaddr_results (s : State W) (port : Z) (name : string) :
  let ok := fst (fst (_init_sockaddr port name s)) in
  let addr := snd (fst (_init_sockaddr port name s)) in
  let s' := snd (_init_sockaddr port name s) in
  let he := fst (os_gethostbyname name (world s)) in
  sin_family addr = AF_INET /\
  sin_port addr = htons host_order port /\
  (ok = false <-> name <> ""%string /\ he = None) /\
  (ok = false -> sin_addr addr = [0; 0; 0; 0]) /\
  (name = ""%string -> new_events s s' = []) /\
  (name <> ""%string ->
     new_events s s' =
     [EvGetHostByName name match he with Some _ => true | None => false end]) /\
  (forall h, name <> ""%string -> he = Some h ->
     h_length h = 4%nat -> List.length (h_addr h) = 4%nat ->
     ok = true /\ sin_addr addr = h_addr h).
Proof.
  cbv zeta. unfold_methods.
  destruct (String.eqb_spec name "") as [Hname | Hname]; simpl.
  - rewrite new_events_nil.
    repeat split; auto; try discriminate; try contradiction.
    intros [H _]. contradiction.
  - destruct (os_gethostbyname name (world s)) as [[h|] w']; simpl;
      rewrite new_events_app.
    + repeat split; auto; try discriminate; try contradiction.
      * intros [_ H]. discriminate.
      * injection H0 as <-. unfold memcpy. rewrite H1. simpl skipn.
        rewrite app_nil_r. rewrite <- H2. apply firstn_all.
    + repeat split; auto; try discriminate; try contradiction.
Qed.

(** *** connect *)

(** [connect], case by case. *)
Lemma connect_cases (s : State W) (port : Z) (host : string) :
  let fd := _fd (this s) in
  let was := _is_connected (this s) in
  let any := mk_sockaddr_in AF_INET (htons host_order port) [0; 0; 0; 0] in
  let he := fst (os_gethostbyname host (world s)) in
  let w1 := snd (os_gethostbyname host (world s)) in
  (_is_init (this s) = false -> connect port host s = (false, s)) /\
  (_is_init (this s) = true -> host = ""%string ->
     let ret := fst (os_connect fd any (world s)) in
     connect port host s =
     (ret =? 0,
      mk_State (mk_UdpConnection fd ((ret =? 0) || was) true any)
        (log s ++ [EvConnect fd any ret])
        (snd (os_connect fd any (world s))))) /\
  (_is_init (this s) = true -> host <> ""%string -> he = None ->
     connect port host s =
     (false,
      mk_State (mk_UdpConnection fd was true any)
        (log s ++ [EvGetHostByName host false]) w1)) /\
  (forall h, _is_init (this s) = true -> host <> ""%string -> he = Some h ->
     let addr := mk_sockaddr_in AF_INET (htons host_order port)
                   (memcpy [0; 0; 0; 0] (h_addr h) (h_length h)) in
     let ret := fst (os_connect fd addr w1) in
     connect port host s =
     (ret =? 0,
      mk_State (mk_UdpConnection fd ((ret =? 0) || was) true addr)
        (log s ++ [EvGetHostByName host true; EvConnect fd addr ret])
        (snd (os_connect fd addr w1)))).
Proof.
  cbv zeta. split; [| split; [| split]].
  - intros Hi. apply (not_init_returns s Hi port host [] 0 0).
  - intros Hi ->. unfold_methods. unfold c_true. rewrite Hi. simpl.
    rewrite inaddr_any_bytes.
    destruct (os_connect _ _ (world s)) as [ret w']. simpl.
    destruct (ret =? 0); simpl; rewrite ?Hi; reflexivity.
  - intros Hi Hhost Hhe. unfold_methods. rewrite Hi. simpl.
    destruct (String.eqb_spec host ""); [contradiction |]. simpl.
    destruct (os_gethostbyname host (world s)) as [he w1]. simpl in *.
    subst he. simpl. rewrite Hi. reflexivity.
  - intros h Hi Hhost Hhe. unfold_methods. unfold c_true. rewrite Hi. simpl.
    destruct (String.eqb_spec host ""); [contradiction |]. simpl.
    destruct (os_gethostbyname host (world s)) as [he w1]. simpl in *.
    subst he. simpl.
    destruct (os_connect _ _ w1) as [ret w']. simpl.
    rewrite <- app_assoc. destruct (ret =? 0); simpl; rewrite ?Hi; reflexivity.
Qed.

(** What [connect] calls, against what it returns. *)
Lemma connect_events (s : State W) (port : Z) (host : string) :
  let r := fst (connect port host s) in
  let s' := snd (connect port host s) in
  let evs := new_events s s' in
  let fd := _fd (this s) in
  (r = false <->
     _is_init (this s) = false \/
     In (EvGetHostByName host false) evs \/
     (exists addr ret, ret <> 0 /\ In (EvConnect fd addr ret) evs)) /\
  (r = true ->
     _is_connected (this s') = true /\
     last evs (EvSocket 0) = EvConnect fd (_remote_addr (this s')) 0) /\
  (r = false -> _is_connected (this s') = _is_connected (this s)) /\
  (In (EvGetHostByName host false) evs ->
     forall fd' addr ret, ~ In (EvConnect fd' addr ret) evs).
Proof.
  cbv zeta. unfold_methods. unfold c_true.
  destruct (_is_init (this s)) eqn:Hi; simpl.
  2: { rewrite new_events_nil. simpl. repeat split; auto; discriminate. }
  destruct (host =? "")%string; simpl.
  - destruct (os_connect _ _ (world s)) as [ret w']. simpl.
    destruct (Z.eqb_spec ret 0) as [Hz | Hnz]; simpl; rewrite new_events_app.
    + repeat split; subst; auto; try discriminate;
        intros; break_in; try discriminate; congruence.
    + repeat split; auto; try discriminate;
        try (intros; break_in; discriminate).
      intros _. right. right. eexists _, ret. simpl. auto.
  - destruct (os_gethostbyname host (world s)) as [[he|] w1]; simpl.
    + destruct (os_connect _ _ w1) as [ret w']. simpl.
      destruct (Z.eqb_spec ret 0) as [Hz | Hnz]; simpl;
        rewrite new_events_app2.
      * repeat split; subst; auto; try discriminate;
          intros; break_in; try discriminate; congruence.
      * repeat split; auto; try discriminate;
          try (intros; break_in; discriminate).
        intros _. right. right. eexists _, ret. simpl. auto.
    + rewrite new_events_app. repeat split; auto; try discriminate.
      * intros _. right. left. left. reflexivity.
      * intros H fd' addr ret Hin. break_in; discriminate.
Qed.

(** X4. [connect] returns [false] exactly when the object is not initialised,
    or the resolver did not find the host, or the operating system's
    [connect] returned non-zero. When it returns [true] the object is
    connected and the last call made is the operating system's [connect],
    with result 0, on the address now stored. When it returns [false]
    [_is_connected] is what it was, and after a failed resolution the
    operating system's [connect] is not called. In full: on an object that
    is not initialised it returns [false] and calls nothing; with an empty
    host it calls [connect] on the wildcard address and returns whether
    the result was 0; with a host the resolver does not find it returns
    [false] after the resolver call alone; with a host the resolver finds
    it calls [connect] on the address found and returns whether the result
    was 0; and in each case the object is left with the address produced
    and with [_is_connected] raised exactly on success. *)
Theorem connect_results (s : State W) (port : Z) (host : string) :
  let r := fst (connect port host s) in
  let s' := snd (connect port host s) in
  let evs := new_events s s' in
  let fd := _fd (this s) in
  let was := _is_connected (this s) in
  let any := mk_sockaddr_in AF_INET (htons host_order port) [0; 0; 0; 0] in
  let he := fst (os_gethostbyname host (world s)) in
  let w1 := snd (os_gethostbyname host (world s)) in
  (r = false <->
     _is_init (this s) = false \/
     In (EvGetHostByName host false) evs \/
     (exists addr ret, ret <> 0 /\ In (EvConnect fd addr ret) evs)) /\
  (r = true ->
     _is_connected (this s') = true /\
     last evs (EvSocket 0) = EvConnect fd (_remote_addr (this s')) 0) /\
  (r = false -> _is_connected (this s') = _is_connected (this s)) /\
  (In (EvGetHostByName host false) evs ->
     forall fd' addr ret, ~ In (EvConnect fd' addr ret) evs) /\
  (_is_init (this s) = false -> connect port host s = (false, s)) /\
  (_is_init (this s) = true -> host = ""%string ->
     let ret := fst (os_connect fd any (world s)) in
     connect port host s =
     (ret =? 0,
      mk_State (mk_UdpConnection fd ((ret =? 0) || was) true any)
        (log s ++ [EvConnect fd any ret])
        (snd (os_connect fd any (world s))))) /\
  (_is_init (this s) = true -> host <> ""%string -> he = None ->
     connect port host s =
     (false,
      mk_State (mk_UdpConnection fd was true any)
        (log s ++ [EvGetHostByName host false]) w1)) /\
  (forall h, _is_init (this s) = true -> host <> ""%string -> he = Some h ->
     let addr := mk_sockaddr_in AF_INET (htons host_order port)
                   (memcpy [0; 0; 0; 0] (h_addr h) (h_length h)) in
     let ret := fst (os_connect fd addr w1) in
     connect port host s =
     (ret =? 0,
      mk_State (mk_UdpConnection fd ((ret =? 0) || was) true addr)
        (log s ++ [EvGetHostByName host true; EvConnect fd addr ret])
        (snd (os_connect fd addr w1)))).
Proof.
  cbv zeta.
  destruct (connect_events s port host) as (H1 & H2 & H3 & H4).
  split; [exact H1 |]. split; [exact H2 |]. split; [exact H3 |].
  split; [exact H4 |]. exact (connect_cases s port host).
Qed.

(** X5. On an initialised object [connect] stores in [_remote_addr] whatever
    [_init_sockaddr] produced, whether or not it then succeeds. So when
    the resolver does not find the host, [connect] returns [false] and the
    stored address is [AF_INET], the new port and 0.0.0.0, while
    [_is_connected], hence the connection state, is as before. *)
Theorem connect_overwrites_remote_addr (s : State W) (port : Z)
    (host : string) :
  _is_init (this s) = true ->
  let r := fst (connect port host s) in
  let s' := snd (connect port host s) in
  _remote_addr (this s') = snd (fst (_init_sockaddr port host s)) /\
  (host <> ""%string -> fst (os_gethostbyname host (world s)) = None ->
     r = false /\
     _remote_addr (this s') =
       mk_sockaddr_in AF_INET (htons host_order port) [0; 0; 0; 0] /\
     conn_state (this s') = conn_state (this s)).
Proof.
  intros Hi. cbv zeta. unfold conn_state. unfold_methods. unfold c_true.
  rewrite Hi. simpl.
  destruct (String.eqb_spec host "") as [Hhost | Hhost]; simpl.
  - destruct (os_connect _ _ (world s)) as [ret w']. simpl.
    destruct (ret =? 0); simpl; split; auto; contradiction.
  - destruct (os_gethostbyname host (world s)) as [[he|] w1]; simpl.
    + destruct (os_connect _ _ w1) as [ret w']. simpl.
      destruct (ret =? 0); simpl; split; auto; discriminate.
    + rewrite Hi. auto.
Qed.

(** *** send *)

(** [send] on a connected object, call by call. *)
Lemma send_connected (buf : list Z) (size timeout : Z) (s : State W) :
  _is_init (this s) = true -> _is_connected (this s) = true ->
  send buf size timeout s =
  let fd := _fd (this s) in
  let '(ready, w1) := os_can_write fd timeout (world s) in
  if ready then
    let '(n, w2) := os_write fd buf size w1 in
    (if n <? 0 then -1 else n,
     mk_State (this s)
       ((log s ++ [EvCanWrite fd timeout true]) ++ [EvWrite fd buf size n])
       w2)
  else (0, mk_State (this s) (log s ++ [EvCanWrite fd timeout false]) w1).
Proof.
  intros Hi Hc. unfold_methods. rewrite Hi, Hc. simpl.
  destruct (os_can_write _ _ (world s)) as [[|] w1]; simpl; auto.
  destruct (os_write _ _ _ w1) as [n w2]. simpl.
  destruct (n <? 0); reflexivity.
Qed.

(** X6. On a Connected object [send] first waits for writability with the
    caller's timeout. When the wait ends without it, [send] returns 0 and
    writes nothing; otherwise it makes one [write] of the caller's buffer
    and size, returns -1 exactly when that [write] returned a negative
    count, and returns the count otherwise. *)
Theorem send_results (s : State W) (buf : list Z) (size timeout : Z) :
  conn_state (this s) = Connected ->
  let fd := _fd (this s) in
  let ready := fst (os_can_write fd timeout (world s)) in
  let w1 := snd (os_can_write fd timeout (world s)) in
  let n := fst (os_write fd buf size w1) in
  let r := fst (send buf size timeout s) in
  let evs := new_events s (snd (send buf size timeout s)) in
  (ready = false -> r = 0 /\ evs = [EvCanWrite fd timeout false]) /\
  (ready = true ->
     evs = [EvCanWrite fd timeout true; EvWrite fd buf size n]) /\
  (r = -1 <-> ready = true /\ n < 0) /\
  (ready = true -> 0 <= n -> r = n).
Proof.
  intros Hstate. cbv zeta.
  assert (Hi : _is_init (this s) = true /\ _is_connected (this s) = true).
  { unfold conn_state in Hstate.
    destruct (_is_init (this s)), (_is_connected (this s));
      simpl in Hstate; try discriminate; auto. }
  destruct Hi as [Hi Hc]. rewrite (send_connected buf size timeout s Hi Hc).
  cbv zeta.
  destruct (os_can_write (_fd (this s)) timeout (world s)) as [[|] w1]; simpl.
  - destruct (os_write (_fd (this s)) buf size w1) as [n w2]. simpl.
    rewrite new_events_app2. simpl.
    destruct (Z.ltb_spec n 0).
    + split; [discriminate |]. split; [reflexivity |].
      split; [| intros; lia].
      split; [intros _; split; [reflexivity | lia] | reflexivity].
    + split; [discriminate |]. split; [reflexivity |].
      split; [| reflexivity].
      split; [intros; lia | intros [_ Hn]; lia].
  - rewrite new_events_app.
    split; [intros _; split; reflexivity |].
    split; [discriminate |].
    split; [| discriminate].
    split; [discriminate | intros [H _]; discriminate].
Qed.

(** X7. After a [connect] that returned [true], [send] is past both guards:
    when the descriptor is writable it writes the caller's buffer on the
    descriptor [connect] used and returns the count of that [write], or -1
    when the count is negative. *)
Theorem send_after_connect (s : State W) (port : Z) (host : string)
    (buf : list Z) (size timeout : Z) :
  fst (connect port host s) = true ->
  let s1 := snd (connect port host s) in
  let fd := _fd (this s) in
  fst (os_can_write fd timeout (world s1)) = true ->
  let n := fst (os_write fd buf size
                  (snd (os_can_write fd timeout (world s1)))) in
  fst (send buf size timeout s1) = (if n <? 0 then -1 else n) /\
  new_events s1 (snd (send buf size timeout s1)) =
    [EvCanWrite fd timeout true; EvWrite fd buf size n].
Proof.
  intros Hok s1 fd Hready n.
  destruct (connect_this port host s) as (Hfd & Hi & Hc & Hinit).
  fold s1 in Hfd, Hi, Hc. rewrite Hok in Hc, Hinit.
  rewrite orb_true_r in Hc. rewrite (Hinit eq_refl) in Hi.
  rewrite (send_connected buf size timeout s1 Hi Hc). cbv zeta.
  rewrite Hfd. fold fd. subst n.
  destruct (os_can_write fd timeout (world s1)) as [ready w1].
  simpl in Hready. subst ready. simpl.
  destruct (os_write fd buf size w1) as [n w2]. simpl.
  rewrite new_events_app2. split; reflexivity.
Qed.

(** *** What a call may do *)

Ltac log_grows :=
  eexists; split;
  [ first [ reflexivity
          | rewrite <- app_assoc; reflexivity
          | symmetry; apply app_nil_r ]
  | simpl; split; [lia |]; split;
    [ repeat (apply Forall_cons || apply Forall_nil || split);
      simpl; rewrite ?Z.eqb_refl, ?String.eqb_refl;
      try match goal with
          | |- context [list_eq_dec Z.eq_dec ?b ?b] =>
              destruct (list_eq_dec Z.eq_dec b b); [| contradiction]
          end; auto
    | intros e1 e2 Heq; inversion Heq; subst; simpl; auto ] ].

Lemma run_op_log (op : Op) (s : State W) :
  exists evs,
    log (snd (run_op op s)) = log s ++ evs /\
    (List.length evs <= 2)%nat /\
    Forall (fun ev => may_call op ev = true /\
                      (event_fd ev = None \/
                       event_fd ev = Some (_fd (this s)))) evs /\
    (forall e1 e2, evs = [e1; e2] ->
       completes e1 = false /\ completes e2 = true).
Proof.
  destruct op as [port name|port host|buf size timeout|buf size timeout];
    unfold run_op; unfold_methods; unfold c_true;
    destruct (_is_init (this s)); simpl; try log_grows.
  - destruct (name =? "")%string; simpl.
    + destruct (os_bind _ _ (world s)) as [r w']. simpl.
      destruct (r =? 0); simpl; log_grows.
    + destruct (os_gethostbyname name (world s)) as [[he|] w1]; simpl.
      * destruct (os_bind _ _ w1) as [r w']. simpl.
        destruct (r =? 0); simpl; log_grows.
      * log_grows.
  - destruct (host =? "")%string; simpl.
    + destruct (os_connect _ _ (world s)) as [r w']. simpl.
      destruct (r =? 0); simpl; log_grows.
    + destruct (os_gethostbyname host (world s)) as [[he|] w1]; simpl.
      * destruct (os_connect _ _ w1) as [r w']. simpl.
        destruct (r =? 0); simpl; log_grows.
      * log_grows.
  - destruct (os_can_read _ _ (world s)) as [[|] w1]; simpl.
    + destruct (os_recvfrom _ _ w1) as [[[n stored] sender] w2]. simpl.
      destruct (n <? 0); simpl; log_grows.
    + log_grows.
  - destruct (_is_connected (this s)); simpl; [| log_grows].
    destruct (os_can_write _ _ (world s)) as [[|] w1]; simpl.
    + destruct (os_write _ _ _ w1) as [n w2]. simpl.
      destruct (n <? 0); simpl; log_grows.
    + log_grows.
Qed.

(** X8. One call of a member function makes at most two calls on the
    operating system, and only those of its own kind with the arguments it
    was given: [bind] the resolver and [bind], [connect] the resolver and
    [connect], [recv] the readiness wait for reading and [recvfrom],
    [send] the readiness wait for writing and [write]; each on the
    object's own descriptor. When it makes two, the first is the resolver
    or the wait and the second the [bind], [connect], [recvfrom] or
    [write]: nothing is retried. *)
Theorem calls_of_one_operation (op : Op) (s : State W) :
  let s' := snd (run_op op s) in
  let evs := new_events s s' in
  log s' = log s ++ evs /\
  (List.length evs <= 2)%nat /\
  Forall (fun ev => may_call op ev = true /\
                    (event_fd ev = None \/
                     event_fd ev = Some (_fd (this s)))) evs /\
  (forall e1 e2, evs = [e1; e2] ->
     completes e1 = false /\ completes e2 = true).
Proof.
  cbv zeta.
  destruct (run_op_log op s) as (evs & Hlog & Hlen & Hall & Hord).
  unfold new_events. rewrite Hlog, skipn_length_app. auto.
Qed.

Lemma may_call_not_socket (op : Op) (ev : Event) :
  may_call op ev = true -> is_socket_call ev = false.
Proof. destruct op, ev; simpl; auto; discriminate. Qed.

Lemma final_state_log (ops : list Op) (s : State W) :
  exists evs,
    log (final_state ops s) = log s ++ evs /\
    Forall (fun ev => is_socket_call ev = false /\
                      (event_fd ev = None \/
                       event_fd ev = Some (_fd (this s)))) evs.
Proof.
  revert s. induction ops as [|op ops IH]; intros s.
  - exists []. split; [symmetry; apply app_nil_r | constructor].
  - rewrite final_state_cons.
    destruct (run_op_log op s) as (evs1 & Hlog1 & _ & Hall1 & _).
    destruct (IH (snd (run_op op s))) as (evs2 & Hlog2 & Hall2).
    destruct (run_op_this op s) as (Hfd & _). simpl in Hfd.
    exists (evs1 ++ evs2). split.
    + rewrite Hlog2, Hlog1, app_assoc. reflexivity.
    + apply Forall_app. split.
      * eapply Forall_impl; [| exact Hall1]. simpl.
        intros ev [Hmay Hown]. split; [| exact Hown].
        eapply may_call_not_socket. exact Hmay.
      * rewrite Hfd in Hall2. exact Hall2.
Qed.

(** X9. Through any run of calls the object keeps its descriptor and its
    [_is_init] flag, the log only grows, no call opens another socket, and
    every call on a descriptor is made on the object's own. *)
Theorem descriptor_kept_through_run (ops : list Op) (s : State W) :
  let s' := final_state ops s in
  let evs := new_events s s' in
  _fd (this s') = _fd (this s) /\
  _is_init (this s') = _is_init (this s) /\
  log s' = log s ++ evs /\
  Forall (fun ev => is_socket_call ev = false /\
                    (event_fd ev = None \/
                     event_fd ev = Some (_fd (this s)))) evs.
Proof.
  cbv zeta. destruct (final_state_init ops s) as [Hi Hfd].
  destruct (final_state_log ops s) as (evs & Hlog & Hall).
  unfold new_events. rewrite Hlog, skipn_length_app. auto.
Qed.

(** X10. A connection opens one socket, in its constructor, and whatever is
    called on it afterwards it keeps the descriptor that call returned and
    opens no other. *)
Theorem one_socket_per_connection (g : sockaddr_in) (w : W) (ops : list Op) :
  let s := final_state ops (UdpConnection_ctor g w) in
  _fd (this s) = fst (os_socket w) /\
  exists evs,
    log s = EvSocket (fst (os_socket w)) :: evs /\
    Forall (fun ev => is_socket_call ev = false) evs.
Proof.
  cbv zeta. destruct (ctor_state g w) as (Hfd & _ & _ & Hlog).
  destruct (final_state_init ops (UdpConnection_ctor g w)) as [_ Hfd'].
  destruct (final_state_log ops (UdpConnection_ctor g w))
    as (evs & Hlog' & Hall).
  split; [rewrite Hfd'; exact Hfd |].
  exists evs. split.
  - rewrite Hlog', Hlog. reflexivity.
  - eapply Forall_impl; [| exact Hall]. simpl. intros ev [H _]. exact H.
Qed.

(** X11. [bind], [recv] and [send] leave every data member of the object as it
    was, in each call and so through any run without a [connect]. *)
Theorem only_connect_writes_object (ops : list Op) (s : State W) :
  forallb (fun op => negb (is_connect op)) ops = true ->
  this (final_state ops s) = this s /\
  (forall st, In st (run_ops ops s) -> this (after st) = this (before st)).
Proof.
  revert s. induction ops as [|op ops IH]; intros s Hall.
  - split; [reflexivity | intros st []].
  - simpl in Hall. apply andb_true_iff in Hall. destruct Hall as [Hop Hall].
    apply negb_true_iff in Hop.
    destruct (run_op_this op s) as (_ & _ & _ & Hsame & _). simpl in Hsame.
    specialize (Hsame Hop).
    destruct (IH (snd (run_op op s)) Hall) as [Hfinal Hsteps].
    rewrite final_state_cons, run_ops_cons. split.
    + rewrite Hfinal. exact Hsame.
    + intros st [<- | Hin]; [exact Hsame | apply Hsteps; exact Hin].
Qed.

(** *** bind *)

(** X12. When [bind] reaches the operating system's [bind], the resolver has
    not failed, the address passed is the one [_init_sockaddr] produced,
    the descriptor is the object's own, and [bind] returns [true] exactly
    when that call returned 0. *)
Theorem bind_passes_resolved_address (s : State W) (port : Z)
    (name : string) (fd : Z) (addr : sockaddr_in) (ret : Z) :
  let evs := new_events s (snd (bind port name s)) in
  In (EvBind fd addr ret) evs ->
  fd = _fd (this s) /\
  fst (fst (_init_sockaddr port name s)) = true /\
  addr = snd (fst (_init_sockaddr port name s)) /\
  fst (bind port name s) = (ret =? 0) /\
  ~ In (EvGetHostByName name false) evs.
Proof.
  cbv zeta. unfold_methods. unfold c_true, Fd_get.
  destruct (_is_init (this s)); simpl.
  2: { rewrite new_events_nil. intros []. }
  destruct (name =? "")%string; simpl.
  - destruct (os_bind _ _ (world s)) as [r w']. simpl.
    destruct (r =? 0) eqn:Hr; simpl; rewrite new_events_app;
      intros [H | []]; inversion H; subst; rewrite Hr;
      repeat split; auto; intros [H' | []]; discriminate.
  - destruct (os_gethostbyname name (world s)) as [[he|] w1]; simpl.
    + destruct (os_bind _ _ w1) as [r w']. simpl.
      destruct (r =? 0) eqn:Hr; simpl; rewrite new_events_app2;
        intros [H | [H | []]]; try discriminate;
        inversion H; subst; rewrite Hr;
        repeat split; auto;
        intros [H' | [H' | []]]; discriminate.
    + rewrite new_events_app. intros [H | []]. discriminate.
Qed.

End More.

(** *** Runs on the simulated host *)

Import Sim.

Lemma init_sockaddr_results_witness :
  sin_addr (snd (fst (_init_sockaddr 5001 "beta" Sim.fresh))) = [10; 0; 0; 2].
Proof.
  destruct (init_sockaddr_results Sim.fresh 5001 "beta")
    as (_ & _ & _ & _ & _ & _ & H).
  apply (H (mk_hostent [10; 0; 0; 2] 4));
    [discriminate | reflexivity | reflexivity | reflexivity].
Defined.

Lemma connect_results_witness :
  _is_connected (this (snd (connect 5001 "alpha" Sim.fresh))) = true /\
  fst (os_gethostbyname "gamma" (world Sim.fresh)) = None /\
  fst (connect 5001 "gamma" Sim.fresh) = false.
Proof.
  split.
  - destruct (connect_results Sim.fresh 5001 "alpha") as (_ & H & _).
    apply H. reflexivity.
  - split; [reflexivity |].
    destruct (connect_results Sim.fresh 5001 "gamma")
      as (_ & _ & _ & _ & _ & _ & H & _).
    rewrite H; [reflexivity | reflexivity | discriminate | reflexivity].
Defined.

Lemma connect_overwrites_remote_addr_witness :
  _is_init (this Sim.connected_to_alpha) = true /\
  _remote_addr (this (snd (connect 6000 "gamma" Sim.connected_to_alpha))) =
    mk_sockaddr_in AF_INET 0x7017 [0; 0; 0; 0] /\
  conn_state (this (snd (connect 6000 "gamma" Sim.connected_to_alpha))) =
    Connected.
Proof.
  split; [reflexivity |].
  destruct (connect_overwrites_remote_addr Sim.connected_to_alpha 6000 "gamma"
              eq_refl) as (_ & H).
  destruct H as (_ & Haddr & Hstate); [discriminate | reflexivity |].
  split; [exact Haddr | exact Hstate].
Defined.

Lemma send_results_witness :
  conn_state (this connected_to_alpha) = Connected /\
  fst (send [0x41; 0x42; 0x43] 3 10 connected_to_alpha) = 3.
Proof.
  split; [reflexivity |].
  destruct (send_results connected_to_alpha [0x41; 0x42; 0x43] 3 10 eq_refl)
    as (_ & _ & _ & H).
  apply H; [reflexivity | vm_compute; discriminate].
Defined.

Lemma send_after_connect_witness :
  fst (connect 5001 "alpha" fresh) = true /\
  new_events connected_to_alpha
    (snd (send [0x41; 0x42; 0x43] 3 10 connected_to_alpha)) =
  [EvCanWrite 3 10 true; EvWrite 3 [0x41; 0x42; 0x43] 3 3].
Proof.
  split; [reflexivity |].
  assert (Hok : fst (connect 5001 "alpha" fresh) = true) by reflexivity.
  assert (Hready : fst (os_can_write (_fd (this fresh)) 10
                          (world (snd (connect 5001 "alpha" fresh)))) = true)
    by reflexivity.
  destruct (send_after_connect fresh 5001 "alpha" [0x41; 0x42; 0x43] 3 10
              Hok Hready) as (_ & H).
  exact H.
Defined.

Lemma only_connect_writes_object_witness :
  this (final_state calls_after_connect connected_to_alpha) =
  this connected_to_alpha.
Proof.
  apply (only_connect_writes_object calls_after_connect connected_to_alpha).
  reflexivity.
Defined.

Lemma bind_passes_resolved_address_witness :
  fst (bind 5001 "beta" fresh) = true.
Proof.
  destruct (bind_passes_resolved_address fresh 5001 "beta" 3 beta_addr 0)
    as (_ & _ & _ & H & _).
  - right. left. reflexivity.
  - exact H.
Defined.

Lemma calls_of_one_operation_witness :
  completes (EvGetHostByName "alpha" true) = false /\
  completes (EvConnect 3 alpha_addr 0) = true.
Proof.
  destruct (calls_of_one_operation (OpConnect 5001 "alpha") fresh)
    as (_ & _ & _ & H).
  apply H. reflexivity.
Defined.

End UdpMore.
